(** * optimus: the runtime service handler and the job metadata adapter

    A shallow embedding of the gRPC handler of [api/handler/v1/runtime.go] and
    of the metadata adapter exercised by [meta]'s [TestJobAdapter].

    Go values are modelled as follows: [string] as [string], [int] and
    [time.Duration] as [Z], slices as [list], [map[string]T] as
    [gmap string T], pointers that may be [nil] as [option], interfaces as
    records of their methods, and a [(value, error)] return as [result]. *)

From Stdlib Require Import ZArith.
From stdpp Require Import base option strings list gmap.

Local Open Scope string_scope.
Local Open Scope list_scope.
Local Open Scope Z_scope.

(** ** Go's [error] interface and [(value, error)] returns *)

(** The built-in interface [error] has one method, [Error() string]. *)
Class GoError (E : Type) := Error : E → string.

(** A Go function returning [(T, error)] returns either a value with a [nil]
    error or an error (the value is then not looked at by the callers). *)
Inductive result (E A : Type) : Type :=
| Ok (a : A)
| Err (e : E).
Arguments Ok {E A} a.
Arguments Err {E A} e.

(** The kinds of failure the system distinguishes. *)
Inductive ErrorKind :=
| NotFoundError
| AdaptationError
| PersistenceError
| SyncError
| DestinationResolutionError
| InvalidDependencyError
| SerializationError.

(** A concrete error value: its kind and the text [Error()] returns. *)
Record KindedError := { kind : ErrorKind; text : string }.

#[export] Instance KindedError_GoError : GoError KindedError := text.

(** ** package models *)

(** Modelled from the spec: package [models] is not among the sources.  Its
    types are read off the composite literals of [TestJobAdapter] and the
    data model of the specification; only the fields those name are kept. *)
Module models.

Record ProjectSpec := {
  ProjectName : string;
  ProjectConfig : gmap string string }.

Record JobSpecLabelItem := { LabelName : string; LabelValue : string }.

Record JobSpecBehavior := { CatchUp : bool; DependsOnPast : bool }.

(** [StartDate] is a [time.Time], kept as seconds since the Unix epoch. *)
Record JobSpecSchedule := { StartDate : Z; Interval : string }.

Record JobSpecConfigItem := { ConfigName : string; ConfigValue : string }.

(** [Size] and [Offset] are [time.Duration]s, in nanoseconds. *)
Record JobSpecTaskWindow := { Size : Z; Offset : Z; TruncateTo : string }.

Record JobSpecAsset := { AssetName : string; AssetValue : string }.

(** [JobAssets{}.New(assets)] wraps the slice it is given. *)
Record JobAssets := { assetData : list JobSpecAsset }.

Definition JobAssets_New (data : list JobSpecAsset) : JobAssets :=
  {| assetData := data |}.

(** Modelled from the spec: [Assets.ToMap()], the projection of the assets
    to a mapping from name to value (a later asset of the same name wins). *)
Definition ToMap (a : JobAssets) : gmap string string :=
  fold_left (λ m x, <[AssetName x := AssetValue x]> m) (assetData a) ∅.

(** What a unit is given to compute its destination. *)
Record UnitData := {
  UnitConfig : list JobSpecConfigItem;
  UnitAssets : gmap string string }.

(** The capability of a task kind. *)
Record ExecutionUnit := {
  GetName : string;
  GetImage : string;
  GetDescription : string;
  GenerateDestination : UnitData → result KindedError string }.

Inductive HookType := HookTypePre | HookTypePost.

(** The capability of a hook kind. *)
Record HookUnit := {
  HookGetName : string;
  HookGetImage : string;
  HookGetDescription : string;
  GetType : HookType;
  GetDependsOn : list string }.

Record JobSpecTask := {
  Unit : ExecutionUnit;
  Config : list JobSpecConfigItem;
  Priority : Z;
  Window : JobSpecTaskWindow }.

(** The fields [Config] and [Unit] of a hook, renamed apart from the
    task's. *)
Record JobSpecHook := {
  HookConfig : list JobSpecConfigItem;
  HookUnit_ : HookUnit }.

Inductive JobSpecDependencyType :=
| JobSpecDependencyTypeIntra
| JobSpecDependencyTypeInter.

(** Modelled from the spec: [JobSpecDependencyType.String()]; an
    inter-project dependency prints as ["inter"]. *)
Definition String (t : JobSpecDependencyType) : string :=
  match t with
  | JobSpecDependencyTypeIntra => "intra"
  | JobSpecDependencyTypeInter => "inter"
  end.

(** The job a dependency points to: of the pointed-to [JobSpec] only the
    name is read. *)
Record JobRef := { RefName : string }.

(** [Project] and [Job] are pointers; [None] is [nil]. *)
Record JobSpecDependency := {
  DepProject : option ProjectSpec;
  DepJob : option JobRef;
  DepType : JobSpecDependencyType }.

Record JobSpec := {
  Name : string;
  Owner : string;
  Version : Z;
  Labels : list JobSpecLabelItem;
  Behavior : JobSpecBehavior;
  Schedule : JobSpecSchedule;
  Task : JobSpecTask;
  Assets : JobAssets;
  Dependencies : gmap string JobSpecDependency;
  Hooks : list JobSpecHook }.

Record JobTaskMetadata := {
  TaskName : string;
  TaskImage : string;
  TaskDescription : string;
  TaskDestination : string;
  TaskConfig : list JobSpecConfigItem;
  TaskWindow : JobSpecTaskWindow;
  TaskPriority : Z }.

Record JobDependencyMetadata := {
  DepTenant : string;
  DepJobName : string;
  DepTypeName : string }.

Record JobHookMetadata := {
  HookName : string;
  HookImage : string;
  HookDescription : string;
  HookMetaConfig : list JobSpecConfigItem;
  HookMetaType : HookType;
  HookDependsOn : list string }.

Record JobMetadata := {
  Urn : string;
  MetaName : string;
  Tenant : string;
  MetaVersion : Z;
  Description : string;
  MetaLabels : list JobSpecLabelItem;
  MetaOwner : string;
  MetaTask : JobTaskMetadata;
  MetaSchedule : JobSpecSchedule;
  MetaBehavior : JobSpecBehavior;
  MetaDependencies : list JobDependencyMetadata;
  MetaHooks : list JobHookMetadata }.

End models.

(** [result E] is the error monad in which the adapter runs. *)
#[export] Instance result_ret {E} : MRet (result E) := λ A a, Ok a.
#[export] Instance result_bind {E} : MBind (result E) := λ A B f m,
  match m with
  | Ok a => f a
  | Err e => Err e
  end.

(** ** package meta: the job metadata adapter *)
Module meta.
Import models.

(** Modelled from the spec: the Urn of a job, step 1 of [FromJobSpec]:
    [project.Name + "::job/" + job.Name]. *)
Definition buildUrn (project : ProjectSpec) (job : JobSpec) : string :=
  ProjectName project +:+ "::job/" +:+ Name job.

(** Modelled from the spec: step 3 of [FromJobSpec] (and, for hooks, step
    5): a config is flattened into name/value pairs by one pass over it that
    appends a pair per entry. *)
Definition flattenConfig (config : list JobSpecConfigItem)
  : list JobSpecConfigItem :=
  fold_left
    (λ out c, out ++ [{| ConfigName := ConfigName c;
                         ConfigValue := ConfigValue c |}])
    config [].

(** Modelled from the spec: step 4 of [FromJobSpec] for one dependency
    entry.  The tenant is the dependency's project when there is one and the
    current project otherwise; an entry with neither a job nor a project is
    an [InvalidDependencyError]. *)
Definition flattenDependency (project : ProjectSpec) (key : string)
    (dep : JobSpecDependency) : result KindedError JobDependencyMetadata :=
  match DepJob dep, DepProject dep with
  | None, None =>
      Err {| kind := InvalidDependencyError;
             text := "invalid dependency: " +:+ key |}
  | _, _ =>
      Ok {| DepTenant := match DepProject dep with
                         | Some depProject => ProjectName depProject
                         | None => ProjectName project
                         end;
            DepJobName := match DepJob dep with
                          | Some depJob => RefName depJob
                          | None => ""
                          end;
            DepTypeName := String (DepType dep) |}
  end.

(** Modelled from the spec: step 4 of [FromJobSpec] over the entries of the
    [Dependencies] mapping; the first invalid entry fails the whole call. *)
Fixpoint flattenDependencies (project : ProjectSpec)
    (entries : list (string * JobSpecDependency))
  : result KindedError (list JobDependencyMetadata) :=
  match entries with
  | [] => mret []
  | (key, dep) :: rest =>
      d ← flattenDependency project key dep;
      ds ← flattenDependencies project rest;
      mret (d :: ds)
  end.

(** Modelled from the spec: step 5 of [FromJobSpec] for one hook. *)
Definition flattenHook (hook : JobSpecHook) : JobHookMetadata :=
  {| HookName := HookGetName (HookUnit_ hook);
     HookImage := HookGetImage (HookUnit_ hook);
     HookDescription := HookGetDescription (HookUnit_ hook);
     HookMetaConfig := flattenConfig (HookConfig hook);
     HookMetaType := GetType (HookUnit_ hook);
     HookDependsOn := GetDependsOn (HookUnit_ hook) |}.

(** Modelled from the spec: step 5 of [FromJobSpec]: one pass over [Hooks]
    that appends the flattened hook. *)
Definition flattenHooks (hooks : list JobSpecHook) : list JobHookMetadata :=
  fold_left (λ out hook, out ++ [flattenHook hook]) hooks [].

(** Modelled from the spec: [JobAdapter.FromJobSpec(project, job)], which
    is not among the sources (only its test is).  The destination is asked
    of the task's unit and its failure is passed on as it is; no record is
    returned next to an error.  The specification names no source for
    [Description]; the test expects it empty. *)
Definition FromJobSpec (project : ProjectSpec) (job : JobSpec)
  : result KindedError JobMetadata :=
  let urn := buildUrn project job in
  dest ← GenerateDestination (Unit (Task job))
           {| UnitConfig := Config (Task job);
              UnitAssets := ToMap (Assets job) |};
  let taskConfig := flattenConfig (Config (Task job)) in
  deps ← flattenDependencies project (map_to_list (Dependencies job));
  let hooks := flattenHooks (Hooks job) in
  mret {| Urn := urn;
          MetaName := Name job;
          Tenant := ProjectName project;
          MetaVersion := Version job;
          Description := "";
          MetaLabels := Labels job;
          MetaOwner := Owner job;
          MetaTask :=
            {| TaskName := GetName (Unit (Task job));
               TaskImage := GetImage (Unit (Task job));
               TaskDescription := GetDescription (Unit (Task job));
               TaskDestination := dest;
               TaskConfig := taskConfig;
               TaskWindow := Window (Task job);
               TaskPriority := Priority (Task job) |};
          MetaSchedule := Schedule job;
          MetaBehavior := Behavior job;
          MetaDependencies := deps;
          MetaHooks := hooks |}.

(** A dependency entry that can be flattened: it names a job or a project. *)
Definition validDependency (dep : JobSpecDependency) : Prop :=
  is_Some (DepJob dep) ∨ is_Some (DepProject dep).

(** *** The fixture of [TestJobAdapter] *)

Definition projectSpec : ProjectSpec :=
  {| ProjectName := "humara-projectSpec";
     ProjectConfig := {[ "bucket" := "gs://some_folder" ]} |}.

(** [mock.ExecutionUnit] with the returns the test sets up. *)
Definition execUnit : ExecutionUnit :=
  {| GetName := "bq2bq";
     GetImage := "image";
     GetDescription := "description";
     GenerateDestination := λ _, Ok "destination_table" |}.

(** [mock.HookUnit] with the returns the test sets up. *)
Definition hookUnit : HookUnit :=
  {| HookGetName := "transporter";
     HookGetImage := "h_image";
     HookGetDescription := "h_description";
     GetType := HookTypePost;
     GetDependsOn := ["some_value"] |}.

(** [jobSpecs[0]]; [time.Date(2000, 11, 11, 0, 0, 0, 0, time.UTC)] is
    973900800 seconds after the epoch and [time.Hour] is 3600e9 ns. *)
Definition jobSpec1 : JobSpec :=
  {| Name := "job-1";
     Owner := "mee@mee";
     Version := 100;
     Labels := [{| LabelName := "l1"; LabelValue := "lv1" |}];
     Behavior := {| CatchUp := true; DependsOnPast := false |};
     Schedule := {| StartDate := 973900800; Interval := "* * * * *" |};
     Task :=
       {| Unit := execUnit;
          Config := [{| ConfigName := "do"; ConfigValue := "this" |}];
          Priority := 2000;
          Window := {| Size := 3600000000000; Offset := 0;
                       TruncateTo := "d" |} |};
     Assets := JobAssets_New
                 [{| AssetName := "query.sql";
                     AssetValue := "select * from 1" |}];
     Dependencies :=
       {[ "job-2" :=
            {| DepProject := Some {| ProjectName := "some_other_project";
                                     ProjectConfig := ∅ |};
               DepJob := Some {| RefName := "job-2" |};
               DepType := JobSpecDependencyTypeInter |} ]};
     Hooks :=
       [{| HookConfig :=
             [{| ConfigName := "SAMPLE_CONFIG"; ConfigValue := "200" |};
              {| ConfigName := "PRODUCER_CONFIG_BOOTSTRAP_SERVERS";
                 ConfigValue := "{{.GLOBAL__transporterKafkaBroker}}" |}];
           HookUnit_ := hookUnit |}] |}.

Definition expectedResourceMetadata : JobMetadata :=
  {| Urn := "humara-projectSpec::job/job-1";
     MetaName := "job-1";
     Tenant := "humara-projectSpec";
     MetaVersion := 100;
     Description := "";
     MetaLabels := Labels jobSpec1;
     MetaOwner := "mee@mee";
     MetaTask :=
       {| TaskName := "bq2bq";
          TaskImage := "image";
          TaskDescription := "description";
          TaskDestination := "destination_table";
          TaskConfig := [{| ConfigName := "do"; ConfigValue := "this" |}];
          TaskWindow := Window (Task jobSpec1);
          TaskPriority := 2000 |};
     MetaSchedule := Schedule jobSpec1;
     MetaBehavior := Behavior jobSpec1;
     MetaDependencies :=
       [{| DepTenant := "some_other_project";
           DepJobName := "job-2";
           DepTypeName := String JobSpecDependencyTypeInter |}];
     MetaHooks :=
       [{| HookName := "transporter";
           HookImage := "h_image";
           HookDescription := "h_description";
           HookMetaConfig :=
             [{| ConfigName := "SAMPLE_CONFIG"; ConfigValue := "200" |};
              {| ConfigName := "PRODUCER_CONFIG_BOOTSTRAP_SERVERS";
                 ConfigValue := "{{.GLOBAL__transporterKafkaBroker}}" |}];
           HookMetaType := HookTypePost;
           HookDependsOn := ["some_value"] |}] |}.

End meta.

(** ** google.golang.org/grpc: status codes and statuses *)
Module codes.
Inductive Code :=
| OK | Canceled | Unknown | InvalidArgument | DeadlineExceeded | NotFound
| AlreadyExists | PermissionDenied | ResourceExhausted | FailedPrecondition
| Aborted | OutOfRange | Unimplemented | Internal | Unavailable | DataLoss
| Unauthenticated.
End codes.

Module status.
(** The terminal status of a call: a code and a message. *)
Record Status := { Code : codes.Code; Message : string }.

(** [status.Error(c, msg)] is an [error]; it is [nil] for [codes.OK]. *)
Definition Error (c : codes.Code) (msg : string) : option Status :=
  match c with
  | codes.OK => None
  | _ => Some {| Code := c; Message := msg |}
  end.
End status.

(** ** Calls that return or panic *)

Inductive outcome (A : Type) : Type :=
| Returned (a : A)
| Panicked (msg : string).
Arguments Returned {A} a.
Arguments Panicked {A} msg.

(** What a loop body tells its function: go on, or return this value. *)
Inductive control (A : Type) : Type :=
| Continue
| Return (a : A).
Arguments Continue {A}.
Arguments Return {A} a.

(** The panic of a method call through a [nil] interface value. *)
Definition nilDereference : string :=
  "runtime error: invalid memory address or nil pointer dereference".

(** ** package v1: the runtime service handler *)
Module v1.
Import models.

Section Handler.
(** The state of everything outside the handler: repositories, job
    service, response stream, loggers, standard output. *)
Context {World : Type}.
(** Go's [error] values. *)
Context {error : Type} `{!GoError error}.
(** The wire forms [pb.JobSpecification] and [pb.ProjectSpecification]. *)
Context {JobSpecification ProjectSpecification : Type}.

(** *** Messages of the service (package pb); a field is read through its
    getter where the handler does so *)

Record VersionRequest := { Client : string }.
Record VersionResponse := { Server : string }.

Record DeploySpecificationRequest := {
  GetProjectName : string;
  GetJobs : list JobSpecification }.

Record DeploySpecificationResponse := {
  Succcess : bool;
  JobName : string;
  Message : string }.


Record GetJobRequest := {
  GetJobProjectName : string;
  GetJobName : string }.
Record GetJobResponse := {
  Project : ProjectSpecification;
  Job : JobSpecification }.

(** *** Progress events: [progress.Event] is an interface; the one
    dynamic type the handler knows is [*job.EventJobUpload].  A value of
    that type is a pointer, which may be [nil]: [EventJobUploadNil] is the
    interface value that holds the [nil] pointer. *)
Inductive Event :=
| EventJobUpload (Job : JobSpec) (Err : option error)
| EventJobUploadNil
| EventOther (typeName : string).

(** *** Collaborators, each a record of its methods over the world *)

(** [store.ProjectRepository] *)
Record ProjectRepository := {
  GetByName : string → World → result error ProjectSpec * World;
  Save : ProjectSpec → World → option error * World }.

Record ProjectRepoFactory := {
  New : World → ProjectRepository * World }.

Record ProtoAdapter := {
  FromJobProto : JobSpecification → World → result error JobSpec * World;
  ToJobProto : JobSpec → World → result error JobSpecification * World;
  FromProjectProto : ProjectSpecification → World → ProjectSpec * World;
  ToProjectProto : ProjectSpec → World → ProjectSpecification * World }.

(** [pb.RuntimeService_DeploySpecificationServer]: the response stream. *)
Record DeploySpecificationServer := {
  Send : DeploySpecificationResponse → World → option error * World }.

(** [logrus.FieldLogger], of which [Error] is used. *)
Record FieldLogger := { LogError : string → World → World }.

(** [progress.Observer], as implemented outside the handler. *)
Record ProgressObserver := { ObserverNotify : Event → World → World }.

(** Modelled from the spec: [models.JobService], whose [Sync] is not among
    the sources.  [Sync] is long-running and reports back only through the
    observer chain it is given; a run of it is the sequence of events it
    hands to the chain and its result. *)
Record JobService := {
  Create : JobSpec → ProjectSpec → World → option error * World;
  JobGetByName :
    string → ProjectSpec → World → result error JobSpec * World;
  Sync : ProjectSpec → World → (list Event * option error) * World }.

(** [fmt.Printf] (bytes written and error) and the package logger's [I]. *)
Variable fmt_Printf : string → World → (Z * option error) * World.
Variable log_I : Z * option error → World → World.

(** *** The calls the handler makes, in order, with what they returned *)
Inductive Call :=
| CallPrintf (s : string) (r : Z * option error)
| CallLogI (args : Z * option error)
| CallRepoNew
| CallProjectGetByName (name : string) (r : result error ProjectSpec)
| CallProjectSave (p : ProjectSpec) (r : option error)
| CallFromJobProto (j : JobSpecification) (r : result error JobSpec)
| CallToJobProto (j : JobSpec) (r : result error JobSpecification)
| CallFromProjectProto (p : ProjectSpecification) (r : ProjectSpec)
| CallToProjectProto (p : ProjectSpec) (r : ProjectSpecification)
| CallCreate (j : JobSpec) (p : ProjectSpec) (r : option error)
| CallJobGetByName (name : string) (p : ProjectSpec)
    (r : result error JobSpec)
| CallSync (p : ProjectSpec)
| CallObserverNotify (e : Event)
| CallSend (resp : DeploySpecificationResponse) (r : option error)
| CallLogError (msg : string).

(** *** The monad of the handler: it reads and changes the world, records
    its calls, and returns or panics *)
Definition M (A : Type) : Type := World → outcome A * World * list Call.

#[export] Instance M_ret : MRet M := λ A a w, (Returned a, w, []).

#[export] Instance M_bind : MBind M := λ A B f m w,
  match m w with
  | (Returned a, w', t) =>
      match f a w' with
      | (o, w'', t') => (o, w'', t ++ t')
      end
  | (Panicked msg, w', t) => (Panicked msg, w', t)
  end.

Definition call {A} (op : World → A * World) (ev : A → Call) : M A :=
  λ w, match op w with (a, w') => (Returned a, w', [ev a]) end.

Definition call_ (op : World → World) (ev : Call) : M unit :=
  λ w, (Returned tt, op w, [ev]).

Definition panic {A} (msg : string) : M A := λ w, (Panicked msg, w, []).

(** A [range] loop whose body never returns from the function. *)
Fixpoint forEach {A} (body : A → M unit) (l : list A) : M unit :=
  match l with
  | [] => mret tt
  | x :: rest => _ ← body x; forEach body rest
  end.

(** *** The server.  A handler returning a response pointer and an
    [error] returns a pair of a response that may be [nil] and an error
    that may be [nil]. *)
Record runtimeServiceServer := {
  version : string;
  jobSvc : JobService;
  adapter : ProtoAdapter;
  projectRepoFactory : ProjectRepoFactory;
  progressObserver : ProgressObserver }.

Definition NewRuntimeServiceServer (version : string) (jobSvc : JobService)
    (projectRepoFactory : ProjectRepoFactory) (adapter : ProtoAdapter)
    (progressObserver : ProgressObserver) : runtimeServiceServer :=
  {| version := version;
     jobSvc := jobSvc;
     adapter := adapter;
     projectRepoFactory := projectRepoFactory;
     progressObserver := progressObserver |}.

Definition Version (sv : runtimeServiceServer) (req : VersionRequest)
  : M (option VersionResponse * option status.Status) :=
  r ← call
        (fmt_Printf
           ("client with version " +:+ Client req
              +:+ " requested for ping "))
        (CallPrintf
           ("client with version " +:+ Client req
              +:+ " requested for ping "));
  _ ← call_ (log_I r) (CallLogI r);
  let response := {| Server := version sv |} in
  mret (Some response, None).

(** *** The observer that relays upload events to the caller *)

(** [stream] is the server stream of the request, which
    [DeploySpecification] stores as it receives it; the record holds a
    stream whose [Send] can be called.  An observer built by hand around a
    [nil] stream, whose [Send] would panic in place of answering, has no
    counterpart here: what is stated of [Notify] is stated in terms of the
    answer of [Send].  [log] may be [nil], and [DeploySpecification] leaves
    it so. *)
Record jobSyncObserver := {
  stream : DeploySpecificationServer;
  log : option FieldLogger }.

(** The text of [errors.Wrapf(err, format, args...)]: the formatted
    message, a colon, the cause. *)
Definition Wrapf (err : error) (message : string) : string :=
  message +:+ ": " +:+ Error err.

(** The type switch matches a [nil] pointer of the upload type as well;
    reading [evt.Job.Name] through it panics before anything is sent. *)
Definition Notify (obs : jobSyncObserver) (e : Event) : M unit :=
  match e with
  | EventJobUpload evtJob evtErr =>
      let resp := {| Succcess := true;
                     JobName := Name evtJob;
                     Message := "" |} in
      let resp :=
        match evtErr with
        | Some err => {| Succcess := false;
                         JobName := JobName resp;
                         Message := Error err |}
        | None => resp
        end in
      r ← call (Send (stream obs) resp) (CallSend resp);
      match r with
      | Some err =>
          let msg :=
            Wrapf err ("failed to send deploy spec ack for: "
                         +:+ Name evtJob) in
          match log obs with
          | Some logger => call_ (LogError logger msg) (CallLogError msg)
          | None => panic nilDereference
          end
      | None => mret tt
      end
  | EventJobUploadNil => panic nilDereference
  | EventOther _ => mret tt
  end.

(** *** The observer chain *)

(** Modelled from the spec: [progress.ObserverChain] is not among the
    sources; a chain is the list of its listeners in the order they joined,
    each told of every event in turn. *)
Definition Observer : Type := Event → M unit.
Definition ObserverChain : Type := list Observer.

Definition Join (chain : ObserverChain) (obs : Observer) : ObserverChain :=
  chain ++ [obs].

Definition ChainNotify (chain : ObserverChain) (e : Event) : M unit :=
  forEach (λ obs, obs e) chain.

(** The interface value of each of the two kinds of observer. *)
Definition externalObserver (o : ProgressObserver) : Observer :=
  λ e, call_ (ObserverNotify o e) (CallObserverNotify e).

Definition relayObserver (obs : jobSyncObserver) : Observer := Notify obs.

(** Modelled from the spec: [jobSvc.Sync(projSpec, observers)] as the
    handler sees it: the events of the run reach the chain one after the
    other, then [Sync] returns; a panic of an observer unwinds it. *)
Definition callSync (svc : JobService) (projSpec : ProjectSpec)
    (observers : ObserverChain) : M (option error) :=
  run ← call (Sync svc projSpec) (λ _, CallSync projSpec);
  _ ← forEach (ChainNotify observers) run.1;
  mret run.2.

(** *** DeploySpecification *)

(** The loop over [req.GetJobs()]. *)
Fixpoint deployJobs (sv : runtimeServiceServer) (projSpec : ProjectSpec)
    (jobs : list JobSpecification) : M (control (option status.Status)) :=
  match jobs with
  | [] => mret Continue
  | reqJob :: rest =>
      r ← call (FromJobProto (adapter sv) reqJob) (CallFromJobProto reqJob);
      match r with
      | Err err =>
          mret (Return (status.Error codes.Internal (Error err)))
      | Ok adaptJob =>
          r ← call (Create (jobSvc sv) adaptJob projSpec)
                (CallCreate adaptJob projSpec);
          match r with
          | Some err =>
              mret (Return (status.Error codes.Internal (Error err)))
          | None => deployJobs sv projSpec rest
          end
      end
  end.

Definition DeploySpecification (sv : runtimeServiceServer)
    (req : DeploySpecificationRequest)
    (respStream : DeploySpecificationServer) : M (option status.Status) :=
  projectRepo ← call (New (projectRepoFactory sv)) (λ _, CallRepoNew);
  r ← call (GetByName projectRepo (GetProjectName req))
        (CallProjectGetByName (GetProjectName req));
  match r with
  | Err err => mret (status.Error codes.Internal (Error err))
  | Ok projSpec =>
      c ← deployJobs sv projSpec (GetJobs req);
      match c with
      | Return st => mret st
      | Continue =>
          let observers : ObserverChain := [] in
          let observers :=
            Join observers (externalObserver (progressObserver sv)) in
          let observers :=
            Join observers
              (relayObserver {| stream := respStream; log := None |}) in
          r ← callSync (jobSvc sv) projSpec observers;
          match r with
          | Some err => mret (status.Error codes.Internal (Error err))
          | None => mret None
          end
      end
  end.


Definition GetJob (sv : runtimeServiceServer) (req : GetJobRequest)
  : M (option GetJobResponse * option status.Status) :=
  projectRepo ← call (New (projectRepoFactory sv)) (λ _, CallRepoNew);
  r ← call (GetByName projectRepo (GetJobProjectName req))
        (CallProjectGetByName (GetJobProjectName req));
  match r with
  | Err err => mret (None, status.Error codes.Internal (Error err))
  | Ok projSpec =>
      r ← call (JobGetByName (jobSvc sv) (GetJobName req) projSpec)
            (CallJobGetByName (GetJobName req) projSpec);
      match r with
      | Err err => mret (None, status.Error codes.Internal (Error err))
      | Ok jobSpec =>
          r ← call (ToJobProto (adapter sv) jobSpec)
                (CallToJobProto jobSpec);
          match r with
          | Err err => mret (None, status.Error codes.Internal (Error err))
          | Ok jobProto =>
              p ← call (ToProjectProto (adapter sv) projSpec)
                    (CallToProjectProto projSpec);
              mret (Some {| Project := p; Job := jobProto |}, None)
          end
      end
  end.

(** *** Reading a record of calls *)

(** The error of a failed setup call: project lookup, adaptation of a
    job, or its creation. *)
Definition setupFailure (c : Call) : option error :=
  match c with
  | CallProjectGetByName _ (Err e) => Some e
  | CallFromJobProto _ (Err e) => Some e
  | CallCreate _ _ (Some e) => Some e
  | _ => None
  end.

Definition isSend (c : Call) : bool :=
  match c with CallSend _ _ => true | _ => false end.

Definition isSync (c : Call) : bool :=
  match c with CallSync _ => true | _ => false end.

(** A call that is neither a failed setup call, nor a Send, nor Sync. *)
Definition quiet (c : Call) : Prop :=
  setupFailure c = None ∧ isSend c = false ∧ isSync c = false.

(** A call made while the observers are told of an event. *)
Definition isNotification (c : Call) : bool :=
  match c with
  | CallObserverNotify _ | CallSend _ _ | CallLogError _ => true
  | _ => false
  end.

(** The acknowledgments handed to the stream, in order. *)
Definition sent (t : list Call) : list DeploySpecificationResponse :=
  omap (λ c, match c with CallSend resp _ => Some resp | _ => None end) t.

(** The calls of a batch whose jobs were all adapted and created. *)
Definition persisted (projSpec : ProjectSpec)
    (jobs : list (JobSpecification * JobSpec)) : list Call :=
  flat_map
    (λ ja, [CallFromJobProto ja.1 (Ok ja.2);
            CallCreate ja.2 projSpec None])
    jobs.

(** The wire jobs handed to the adapter, in order. *)
Definition adapted (t : list Call) : list JobSpecification :=
  omap (λ c, match c with CallFromJobProto j _ => Some j | _ => None end) t.

(** The job specs the adapter returned, in order. *)
Definition adaptedSpecs (t : list Call) : list JobSpec :=
  omap (λ c, match c with
             | CallFromJobProto _ (Ok a) => Some a
             | _ => None
             end) t.

(** The job specs handed to [Create], in order. *)
Definition createdSpecs (t : list Call) : list JobSpec :=
  omap (λ c, match c with CallCreate a _ _ => Some a | _ => None end) t.

(** The events the progress observer was told of, in order. *)
Definition notified (t : list Call) : list Event :=
  omap (λ c, match c with CallObserverNotify e => Some e | _ => None end) t.

(** The acknowledgment a job upload calls for: the job's name, whether
    there was no error, and the error's text if there was one. *)
Definition acknowledgment (job : JobSpec) (err : option error)
  : DeploySpecificationResponse :=
  {| Succcess := bool_decide (err = None);
     JobName := Name job;
     Message := from_option Error "" err |}.

Definition ackOf (e : Event) : option DeploySpecificationResponse :=
  match e with
  | EventJobUpload job err => Some (acknowledgment job err)
  | EventJobUploadNil | EventOther _ => None
  end.

(** A call that changes what is stored, starts a sync or writes to the
    caller. *)
Definition isWrite (c : Call) : bool :=
  match c with
  | CallProjectSave _ _ | CallCreate _ _ _ | CallSync _ | CallSend _ _ => true
  | _ => false
  end.
End Handler.
End v1.

(** ** A concrete deployment, used to run the handler *)
Module fixture.
Import models v1.

(** The world is the list of the names of the jobs created so far. *)
Definition World : Type := list string.

(** Wire forms are reduced to the name they carry. *)
Definition JobSpecification : Type := string.
Definition ProjectSpecification : Type := string.

Definition jobNamed (name : string) : JobSpec :=
  {| Name := name;
     Owner := Owner meta.jobSpec1;
     models.Version := models.Version meta.jobSpec1;
     Labels := Labels meta.jobSpec1;
     Behavior := Behavior meta.jobSpec1;
     Schedule := Schedule meta.jobSpec1;
     Task := Task meta.jobSpec1;
     Assets := Assets meta.jobSpec1;
     Dependencies := ∅;
     Hooks := [] |}.

Definition projectNotFound : KindedError :=
  {| kind := NotFoundError; text := "project not found" |}.
Definition jobNotFound : KindedError :=
  {| kind := NotFoundError; text := "job not found" |}.
Definition cannotAdapt : KindedError :=
  {| kind := AdaptationError; text := "cannot adapt job" |}.
Definition cannotCreate : KindedError :=
  {| kind := PersistenceError; text := "cannot create job" |}.
Definition callerGone : KindedError :=
  {| kind := SyncError; text := "transport is closing" |}.

(** A repository that knows one project. *)
Definition projectRepo : ProjectRepository (World := World) :=
  {| GetByName := λ name w,
       if String.eqb name "humara-projectSpec"
       then (Ok meta.projectSpec, w)
       else (Err projectNotFound, w);
     Save := λ _ w, (None, w) |}.

Definition repoFactory : ProjectRepoFactory :=
  {| New := λ w, (projectRepo, w) |}.

(** A repository whose every call fails with the given error. *)
Definition failingRepo (e : KindedError)
  : ProjectRepository (World := World) :=
  {| GetByName := λ _ w, (Err e, w);
     Save := λ _ w, (Some e, w) |}.

(** Two failures of a lookup with the same text: the project is not there,
    and the store cannot be read. *)
Definition lookupMissed : KindedError :=
  {| kind := NotFoundError; text := "cannot load project" |}.
Definition lookupBroke : KindedError :=
  {| kind := PersistenceError; text := "cannot load project" |}.

(** An adapter that cannot adapt the job named ["broken"], nor print the
    job named ["legacy"]. *)
Definition protoAdapter
  : ProtoAdapter (World := World) (error := KindedError)
      (JobSpecification := JobSpecification)
      (ProjectSpecification := ProjectSpecification) :=
  {| FromJobProto := λ j w,
       if String.eqb j "broken" then (Err cannotAdapt, w)
       else (Ok (jobNamed j), w);
     ToJobProto := λ j w,
       if String.eqb (Name j) "legacy" then (Err cannotAdapt, w)
       else (Ok (Name j), w);
     FromProjectProto := λ p w,
       ({| ProjectName := p; ProjectConfig := ∅ |}, w);
     ToProjectProto := λ p w, (ProjectName p, w) |}.

(** A job service that cannot create the job named ["taken"], knows the
    jobs ["job-1"] and ["legacy"], and on [Sync] reports every created job
    as uploaded. *)
Definition jobService : JobService (World := World) (error := KindedError) :=
  {| Create := λ j _ w,
       if String.eqb (Name j) "taken" then (Some cannotCreate, w)
       else (None, w ++ [Name j]);
     JobGetByName := λ name _ w,
       if String.eqb name "job-1" then (Ok meta.jobSpec1, w)
       else if String.eqb name "legacy" then (Ok (jobNamed "legacy"), w)
       else (Err jobNotFound, w);
     Sync := λ _ w,
       ((map (λ name, EventJobUpload (jobNamed name) None) w, None), w) |}.

Definition quietObserver
  : ProgressObserver (World := World) (error := KindedError) :=
  {| ObserverNotify := λ _ w, w |}.

Definition server : runtimeServiceServer :=
  NewRuntimeServiceServer "v0.0.1" jobService repoFactory protoAdapter
    quietObserver.

(** The same server over a repository that fails. *)
Definition serverOver (repo : ProjectRepository) : runtimeServiceServer :=
  NewRuntimeServiceServer "v0.0.1" jobService {| New := λ w, (repo, w) |}
    protoAdapter quietObserver.

(** A stream whose caller listens, and one whose caller has gone. *)
Definition openStream
  : DeploySpecificationServer (World := World) (error := KindedError) :=
  {| Send := λ _ w, (None, w) |}.
Definition closedStream
  : DeploySpecificationServer (World := World) (error := KindedError) :=
  {| Send := λ _ w, (Some callerGone, w) |}.

Definition stdout (s : string) (w : World)
  : (Z * option KindedError) * World :=
  ((Z.of_nat (String.length s), None), w).
Definition logInfo (_ : Z * option KindedError) (w : World) : World := w.

(** A logger that keeps nothing. *)
Definition quietLogger : FieldLogger (World := World) :=
  {| LogError := λ _ w, w |}.

(** A job that was uploaded, and one whose upload failed. *)
Definition uploadFailed : KindedError :=
  {| kind := SyncError; text := "cannot upload job" |}.

(** A job service whose [Sync] reports the upload of every created job as
    failed, tells of one event of another type, and itself succeeds. *)
Definition failingUploads
  : JobService (World := World) (error := KindedError) :=
  {| Create := Create jobService;
     JobGetByName := JobGetByName jobService;
     Sync := λ _ w,
       ((map (λ name, EventJobUpload (jobNamed name) (Some uploadFailed)) w
           ++ [EventOther "progress.Tick"], None), w) |}.

(** A job service whose [Sync] itself fails. *)
Definition failingSync
  : JobService (World := World) (error := KindedError) :=
  {| Create := Create jobService;
     JobGetByName := JobGetByName jobService;
     Sync := λ _ w,
       (([], Some {| kind := SyncError; text := "scheduler is down" |}), w) |}.

Definition serverWith (svc : JobService) : runtimeServiceServer :=
  NewRuntimeServiceServer "v0.0.1" svc repoFactory protoAdapter
    quietObserver.

End fixture.


(** * Properties of the metadata adapter *)
Section MetaFacts.
Import models meta.

(** Copying a config item field by field gives the item back. *)
Lemma flattenConfig_app (config out : list JobSpecConfigItem) :
  fold_left
    (λ out c, out ++ [{| ConfigName := ConfigName c;
                         ConfigValue := ConfigValue c |}])
    config out
  = out ++ config.
Proof.
  revert out. induction config as [|c config IH]; intros out; simpl.
  - by rewrite app_nil_r.
  - rewrite IH, <- app_assoc. by destruct c.
Qed.

Lemma flattenConfig_id (config : list JobSpecConfigItem) :
  flattenConfig config = config.
Proof. unfold flattenConfig. by rewrite flattenConfig_app. Qed.

Lemma flattenHooks_app (hooks : list JobSpecHook) (out : list JobHookMetadata) :
  fold_left (λ out hook, out ++ [flattenHook hook]) hooks out
  = out ++ map flattenHook hooks.
Proof.
  revert out. induction hooks as [|h hooks IH]; intros out; simpl.
  - by rewrite app_nil_r.
  - by rewrite IH, <- app_assoc.
Qed.

Lemma flattenHooks_map (hooks : list JobSpecHook) :
  flattenHooks hooks = map flattenHook hooks.
Proof. unfold flattenHooks. by rewrite flattenHooks_app. Qed.

(** A successful flattening of the entries flattens each of them, in order. *)
Lemma flattenDependencies_Ok project entries ds :
  flattenDependencies project entries = Ok ds →
  Forall2 (λ kd d, flattenDependency project kd.1 kd.2 = Ok d) entries ds.
Proof.
  revert ds. induction entries as [|[k dep] entries IH]; intros ds; simpl.
  - intros [= <-]. constructor.
  - unfold mbind, result_bind, mret, result_ret.
    destruct (flattenDependency project k dep) as [d|e] eqn:Hd; [|done].
    destruct (flattenDependencies project entries) as [ds'|e]; [|done].
    intros [= <-]. constructor; [done | by apply IH].
Qed.

Lemma flattenDependencies_valid project entries :
  Forall (λ kd, validDependency kd.2) entries →
  ∃ ds, flattenDependencies project entries = Ok ds.
Proof.
  induction 1 as [|[k dep] entries Hv _ [ds IH]]; simpl.
  - by eexists.
  - unfold mbind, result_bind, mret, result_ret. rewrite IH.
    unfold flattenDependency.
    destruct Hv as [[r Hr]|[q Hq]]; simpl in *; rewrite ?Hr, ?Hq;
      destruct (DepJob dep); by eexists.
Qed.

(** What one flattened entry holds. *)
Lemma flattenDependency_Ok project k dep d :
  flattenDependency project k dep = Ok d →
  DepTenant d = match DepProject dep with
                | Some depProject => ProjectName depProject
                | None => ProjectName project
                end
  ∧ (∀ depJob, DepJob dep = Some depJob → DepJobName d = RefName depJob)
  ∧ DepTypeName d = String (DepType dep).
Proof.
  unfold flattenDependency.
  destruct (DepJob dep) as [r|], (DepProject dep) as [q|];
    intros [= <-]; simpl; repeat split; try done; by intros ? [= <-].
Qed.

(** The record [FromJobSpec] returns, field by field. *)
Lemma FromJobSpec_Ok project job m :
  FromJobSpec project job = Ok m →
  ∃ dest deps,
    GenerateDestination (Unit (Task job))
      {| UnitConfig := Config (Task job);
         UnitAssets := ToMap (Assets job) |} = Ok dest
    ∧ flattenDependencies project (map_to_list (Dependencies job)) = Ok deps
    ∧ Urn m = buildUrn project job
    ∧ TaskDestination (MetaTask m) = dest
    ∧ TaskConfig (MetaTask m) = flattenConfig (Config (Task job))
    ∧ MetaDependencies m = deps
    ∧ MetaHooks m = flattenHooks (Hooks job).
Proof.
  unfold FromJobSpec, mbind, result_bind, mret, result_ret.
  destruct (GenerateDestination _ _) as [dest|e]; [|done].
  destruct (flattenDependencies _ _) as [deps|e]; [|done].
  intros [= <-]. by exists dest, deps.
Qed.

(** [FromJobSpec] returns a record whenever the unit yields a destination
    and every dependency entry is valid. *)
Lemma FromJobSpec_succeeds project job dest :
  GenerateDestination (Unit (Task job))
    {| UnitConfig := Config (Task job);
       UnitAssets := ToMap (Assets job) |} = Ok dest →
  (∀ k dep, Dependencies job !! k = Some dep → validDependency dep) →
  ∃ m, FromJobSpec project job = Ok m.
Proof.
  intros Hdest Hvalid.
  destruct (flattenDependencies_valid project (map_to_list (Dependencies job)))
    as [ds Hds].
  { apply Forall_forall. intros [k dep] Hin.
    apply elem_of_map_to_list in Hin. by eapply Hvalid. }
  unfold FromJobSpec, mbind, result_bind, mret, result_ret.
  rewrite Hdest, Hds. by eexists.
Qed.

(** The test of the repository: the fixture compiles to the expected record. *)
Lemma TestJobAdapter :
  FromJobSpec projectSpec jobSpec1 = Ok expectedResourceMetadata.
Proof. vm_compute. reflexivity. Qed.

End MetaFacts.

Section MetaClaims.
Import models meta.

(** C2: the record [FromJobSpec] returns for a project [p] and a job [j]
    has the Urn [p.Name + "::job/" + j.Name], and every call on the same
    input returns the same Urn; for project "humara-projectSpec" and job
    "job-1" it is "humara-projectSpec::job/job-1". *)
Theorem FromJobSpec_urn (p : ProjectSpec) (j : JobSpec) (m : JobMetadata) :
  FromJobSpec p j = Ok m →
  Urn m = ProjectName p +:+ "::job/" +:+ Name j
  ∧ ∀ m', FromJobSpec p j = Ok m' → Urn m' = Urn m.
Proof.
  intros Hm. split.
  - apply FromJobSpec_Ok in Hm as (? & ? & _ & _ & Hurn & _). exact Hurn.
  - intros m' Hm'. congruence.
Qed.

Lemma FromJobSpec_urn_witness :
  FromJobSpec projectSpec jobSpec1 = Ok expectedResourceMetadata
  ∧ Urn expectedResourceMetadata = "humara-projectSpec::job/job-1"
  ∧ ∀ m', FromJobSpec projectSpec jobSpec1 = Ok m' →
          Urn m' = Urn expectedResourceMetadata.
Proof.
  assert (H : FromJobSpec projectSpec jobSpec1 = Ok expectedResourceMetadata)
    by (vm_compute; reflexivity).
  split; [exact H|].
  exact (FromJobSpec_urn projectSpec jobSpec1 expectedResourceMetadata H).
Defined.

(** C3: in the record [FromJobSpec] returns, every entry of the job's
    [Dependencies] is flattened to a dependency whose Tenant is the name of
    the entry's project when it has one and the current project's name when
    it has none, whose Job is the name of the entry's job, and whose Type is
    the entry's type printed; the flattened list holds nothing else.  The
    dependency on "job-2" of "some_other_project" flattens to
    ("some_other_project", "job-2", "inter"). *)
Theorem FromJobSpec_dependencies (p : ProjectSpec) (j : JobSpec)
    (m : JobMetadata) :
  FromJobSpec p j = Ok m →
  (∀ k dep, Dependencies j !! k = Some dep →
     ∃ d, d ∈ MetaDependencies m
       ∧ DepTenant d = match DepProject dep with
                       | Some depProject => ProjectName depProject
                       | None => ProjectName p
                       end
       ∧ (∀ depJob, DepJob dep = Some depJob →
            DepJobName d = RefName depJob)
       ∧ DepTypeName d = String (DepType dep))
  ∧ (∀ d, d ∈ MetaDependencies m →
       ∃ k dep, Dependencies j !! k = Some dep
         ∧ flattenDependency p k dep = Ok d)
  ∧ length (MetaDependencies m) = size (Dependencies j).
Proof.
  intros Hm.
  apply FromJobSpec_Ok in Hm as (dest & deps & _ & Hdeps & _ & _ & _ & -> & _).
  apply flattenDependencies_Ok in Hdeps. repeat split.
  - intros k dep Hk. apply elem_of_map_to_list in Hk.
    apply list_elem_of_lookup in Hk as [i Hi].
    destruct (Forall2_lookup_l _ _ _ _ _ Hdeps Hi) as (d & Hd & Hflat).
    exists d. split; [by eapply list_elem_of_lookup_2|].
    by apply (flattenDependency_Ok p k dep d).
  - intros d Hd. apply list_elem_of_lookup in Hd as [i Hi].
    destruct (Forall2_lookup_r _ _ _ _ _ Hdeps Hi) as ([k dep] & Hkd & Hflat).
    exists k, dep. split; [|done].
    apply elem_of_map_to_list. by eapply list_elem_of_lookup_2.
  - rewrite <- (Forall2_length _ _ _ Hdeps). apply length_map_to_list.
Qed.

Lemma FromJobSpec_dependencies_witness :
  FromJobSpec projectSpec jobSpec1 = Ok expectedResourceMetadata
  ∧ (∃ d, d ∈ MetaDependencies expectedResourceMetadata
       ∧ DepTenant d = "some_other_project"
       ∧ DepJobName d = "job-2"
       ∧ DepTypeName d = "inter")
  ∧ length (MetaDependencies expectedResourceMetadata) = 1%nat.
Proof.
  assert (H : FromJobSpec projectSpec jobSpec1 = Ok expectedResourceMetadata)
    by (vm_compute; reflexivity).
  split; [exact H|].
  destruct (FromJobSpec_dependencies projectSpec jobSpec1
              expectedResourceMetadata H) as (Hall & _ & Hlen).
  split; [|exact Hlen].
  destruct (Hall "job-2"
              {| DepProject := Some {| ProjectName := "some_other_project";
                                       ProjectConfig := ∅ |};
                 DepJob := Some {| RefName := "job-2" |};
                 DepType := JobSpecDependencyTypeInter |})
    as (d & Hin & Htenant & Hjob & Htype); [vm_compute; reflexivity|].
  exists d. split; [exact Hin|]. split; [exact Htenant|].
  split; [exact (Hjob _ eq_refl) | exact Htype].
Defined.

(** C7: in the record [FromJobSpec] returns, the i-th pair of the task's
    config is the i-th entry of the job's task config, the i-th hook comes
    from the job's i-th hook, and the i-th pair of a hook's config is the
    i-th entry of that hook's config: nothing is reordered. *)
Theorem FromJobSpec_preserves_order (p : ProjectSpec) (j : JobSpec)
    (m : JobMetadata) :
  FromJobSpec p j = Ok m →
  (∀ i, TaskConfig (MetaTask m) !! i = Config (Task j) !! i)
  ∧ length (MetaHooks m) = length (Hooks j)
  ∧ ∀ i hook, Hooks j !! i = Some hook →
      ∃ hm, MetaHooks m !! i = Some hm
        ∧ HookName hm = HookGetName (HookUnit_ hook)
        ∧ ∀ k, HookMetaConfig hm !! k = HookConfig hook !! k.
Proof.
  intros Hm.
  apply FromJobSpec_Ok in Hm as (? & ? & _ & _ & _ & _ & Hcfg & _ & Hhooks).
  rewrite Hcfg, Hhooks, flattenConfig_id, flattenHooks_map.
  split; [done|]. split; [by rewrite length_map|].
  intros i hook Hi. exists (flattenHook hook). split.
  - by rewrite list_lookup_fmap, Hi.
  - split; [done|]. intros k. simpl. by rewrite flattenConfig_id.
Qed.

Lemma FromJobSpec_preserves_order_witness :
  FromJobSpec projectSpec jobSpec1 = Ok expectedResourceMetadata
  ∧ TaskConfig (MetaTask expectedResourceMetadata) !! 0%nat
    = Some {| ConfigName := "do"; ConfigValue := "this" |}
  ∧ ∃ hm, MetaHooks expectedResourceMetadata !! 0%nat = Some hm
      ∧ HookName hm = "transporter"
      ∧ HookMetaConfig hm !! 0%nat
        = Some {| ConfigName := "SAMPLE_CONFIG"; ConfigValue := "200" |}
      ∧ HookMetaConfig hm !! 1%nat
        = Some {| ConfigName := "PRODUCER_CONFIG_BOOTSTRAP_SERVERS";
                  ConfigValue := "{{.GLOBAL__transporterKafkaBroker}}" |}.
Proof.
  assert (H : FromJobSpec projectSpec jobSpec1 = Ok expectedResourceMetadata)
    by (vm_compute; reflexivity).
  split; [exact H|].
  destruct (FromJobSpec_preserves_order projectSpec jobSpec1
              expectedResourceMetadata H) as (Htask & _ & Hhooks).
  split; [exact (Htask 0%nat)|].
  destruct (Hhooks 0%nat
              {| HookConfig :=
                   [{| ConfigName := "SAMPLE_CONFIG"; ConfigValue := "200" |};
                    {| ConfigName := "PRODUCER_CONFIG_BOOTSTRAP_SERVERS";
                       ConfigValue :=
                         "{{.GLOBAL__transporterKafkaBroker}}" |}];
                 HookUnit_ := hookUnit |} eq_refl)
    as (hm & Hhm & Hname & Hconfig).
  exists hm. split; [exact Hhm|]. split; [exact Hname|].
  split; [exact (Hconfig 0%nat) | exact (Hconfig 1%nat)].
Defined.

End MetaClaims.

(** * Properties of the runtime service handler *)
Section HandlerFacts.
Import models v1.
Context {World error : Type} `{!GoError error}.
Context {JobSpecification ProjectSpecification : Type}.

Local Abbreviation Call :=
  (@v1.Call error JobSpecification ProjectSpecification).
Local Abbreviation M :=
  (@v1.M World error JobSpecification ProjectSpecification).
Local Abbreviation server :=
  (@runtimeServiceServer World error JobSpecification ProjectSpecification).

(** Sequencing, one step at a time. *)
Lemma bind_returned {A B} (m : M A) (f : A → M B) w a w1 t1 :
  m w = (Returned a, w1, t1) →
  (m ≫= f) w = ((f a w1).1.1, (f a w1).1.2, t1 ++ (f a w1).2).
Proof.
  intros Hm. unfold mbind, M_bind. rewrite Hm.
  by destruct (f a w1) as [[o w2] t2].
Qed.

Lemma bind_panicked {A B} (m : M A) (f : A → M B) w msg w1 t1 :
  m w = (Panicked msg, w1, t1) →
  (m ≫= f) w = (Panicked msg, w1, t1).
Proof. intros Hm. unfold mbind, M_bind. by rewrite Hm. Qed.

(** The calls of a loop are the calls of its bodies. *)
Lemma forEach_calls {A} (P : Call → Prop) (body : A → M unit) (l : list A) :
  (∀ x w, Forall P (body x w).2) →
  ∀ w, Forall P (forEach body l w).2.
Proof.
  intros Hbody. induction l as [|x l IH]; intros w; simpl.
  - constructor.
  - unfold mbind, M_bind. specialize (Hbody x w).
    destruct (body x w) as [[[[]|msg] w1] t1]; simpl in *; [|done].
    specialize (IH w1). destruct (forEach body l w1) as [[o w2] t2].
    simpl in *. by apply Forall_app.
Qed.

(** The relay observer makes notification calls only. *)
Lemma Notify_calls (obs : jobSyncObserver) (e : Event) (w : World) :
  Forall (λ c : Call, isNotification c = true) (Notify obs e w).2.
Proof.
  destruct e as [evtJob evtErr| |typeName]; simpl;
    [|constructor|constructor].
  unfold mbind, M_bind, call.
  destruct (Send _ _ w) as [[sendErr|] w1]; simpl.
  - destruct (log obs); simpl; repeat constructor.
  - repeat constructor.
Qed.

(** The chain built by [DeploySpecification] makes notification calls only. *)
Lemma ChainNotify_calls (sv : server) (respStream : DeploySpecificationServer)
    (e : Event) (w : World) :
  Forall (λ c : Call, isNotification c = true)
    (ChainNotify
       (Join (Join [] (externalObserver (progressObserver sv)))
          (relayObserver {| stream := respStream; log := None |})) e w).2.
Proof.
  unfold ChainNotify, Join, externalObserver, relayObserver. simpl.
  unfold mbind, M_bind, call_. simpl.
  pose proof (Notify_calls {| stream := respStream; log := None |} e
                (ObserverNotify (progressObserver sv) e w)) as HN.
  destruct (Notify _ e _) as [[[[]|msg] w1] t1]; simpl in *.
  - constructor; [done|]. by rewrite app_nil_r.
  - by constructor.
Qed.

(** A notification is neither a failed setup call nor Sync. *)
Lemma notification_quiet (c : Call) :
  isNotification c = true → setupFailure c = None ∧ isSync c = false.
Proof. by destruct c. Qed.

(** A failed setup call is neither a Send nor Sync. *)
Lemma setupFailure_not_send_sync (c : Call) (e : error) :
  setupFailure c = Some e → isSend c = false ∧ isSync c = false.
Proof. by destruct c. Qed.

Lemma persisted_quiet (projSpec : ProjectSpec)
    (jobs : list (JobSpecification * JobSpec)) :
  Forall (quiet : Call → Prop) (persisted projSpec jobs).
Proof.
  induction jobs as [|[j a] jobs IH]; simpl; [constructor|].
  by repeat constructor.
Qed.

(** The loop over the jobs either goes through all of them, adapting and
    creating each, or returns at the first failed call with that call's
    error, every call before it having succeeded. *)
Lemma deployJobs_shape (sv : server) (projSpec : ProjectSpec)
    (jobs : list JobSpecification) (w : World) :
  (∃ specs w',
      length specs = length jobs
      ∧ deployJobs sv projSpec jobs w
        = (Returned Continue, w', persisted projSpec (zip jobs specs)))
  ∨ (∃ pre c e w',
      deployJobs sv projSpec jobs w
      = (Returned (Return (status.Error codes.Internal (Error e))), w',
         pre ++ [c])
      ∧ setupFailure c = Some e
      ∧ Forall (quiet : Call → Prop) pre).
Proof.
  revert w. induction jobs as [|reqJob rest IH]; intros w.
  - left. by exists [], w.
  - simpl. unfold mbind, M_bind, call.
    destruct (FromJobProto (adapter sv) reqJob w) as [[adaptJob|err] w1].
    + destruct (Create (jobSvc sv) adaptJob projSpec w1) as [[err|] w2].
      * right. exists [CallFromJobProto reqJob (Ok adaptJob)],
          (CallCreate adaptJob projSpec (Some err)), err, w2.
        simpl. split; [done|]. split; [done|]. by repeat constructor.
      * destruct (IH w2) as [(specs & w' & Hlen & ->)
                            |(pre & c & e & w' & -> & Hc & Hpre)].
        -- left. exists (adaptJob :: specs), w'. simpl.
           split; [by rewrite Hlen | done].
        -- right.
           exists (CallFromJobProto reqJob (Ok adaptJob)
                     :: CallCreate adaptJob projSpec None :: pre), c, e, w'.
           simpl. split; [done|]. split; [done|]. by repeat constructor.
    + right. exists [], (CallFromJobProto reqJob (Err err)), err, w1.
      simpl. split; [done|]. split; [done | constructor].
Qed.

Lemma sent_nil (t : list Call) :
  Forall (λ c, isSend c = false) t → sent t = [].
Proof.
  induction 1 as [|c t Hc _ IH]; [done|].
  unfold sent in *. by destruct c.
Qed.

(** A run of [DeploySpecification] either ends at the first failed setup
    call, or goes through project lookup and all jobs and then calls
    [Sync], after which only notification calls follow. *)
Lemma DeploySpecification_shape (sv : server)
    (req : DeploySpecificationRequest)
    (respStream : DeploySpecificationServer) (w : World)
    (out : outcome (option status.Status)) (w' : World) (t : list Call) :
  DeploySpecification sv req respStream w = (out, w', t) →
  (∃ pre c e,
      out = Returned (status.Error codes.Internal (Error e))
      ∧ t = pre ++ [c]
      ∧ setupFailure c = Some e
      ∧ Forall (quiet : Call → Prop) pre)
  ∨ (∃ projSpec specs rest,
      length specs = length (GetJobs req)
      ∧ t = CallRepoNew
              :: CallProjectGetByName (GetProjectName req) (Ok projSpec)
              :: persisted projSpec (zip (GetJobs req) specs)
              ++ CallSync projSpec :: rest
      ∧ Forall (λ c : Call, isNotification c = true) rest).
Proof.
  unfold DeploySpecification, mbind, M_bind, call.
  destruct (New (projectRepoFactory sv) w) as [projectRepo w0].
  destruct (GetByName projectRepo (GetProjectName req) w0)
    as [[projSpec|err] w1]; simpl.
  - destruct (deployJobs_shape sv projSpec (GetJobs req) w1)
      as [(specs & w2 & Hlen & ->)|(pre & c & e & w2 & -> & Hc & Hpre)].
    + unfold callSync, mbind, M_bind, call.
      destruct (Sync (jobSvc sv) projSpec w2) as [[events r] w3]. simpl.
      pose proof (forEach_calls (λ c : Call, isNotification c = true)
                    (ChainNotify
                       (Join (Join [] (externalObserver (progressObserver sv)))
                          (relayObserver
                             {| stream := respStream; log := None |})))
                    events (ChainNotify_calls sv respStream) w3) as Hrest.
      destruct (forEach _ events w3) as [[[[]|msg] w4] rest]; simpl in *.
      * destruct r as [err|]; simpl; intros [= <- <- <-]; right;
          exists projSpec, specs, rest; rewrite ?app_nil_r; done.
      * intros [= <- <- <-]. right. by exists projSpec, specs, rest.
    + simpl. intros [= <- <- <-]. left.
      exists (CallRepoNew
                :: CallProjectGetByName (GetProjectName req) (Ok projSpec)
                :: pre), c, e.
      rewrite app_nil_r. split; [done|]. split; [done|]. split; [done|].
      by repeat constructor.
  - intros [= <- <- <-]. left. exists [CallRepoNew],
      (CallProjectGetByName (GetProjectName req) (Err err)), err.
    split; [done|]. split; [done|]. split; [done|]. by repeat constructor.
Qed.

End HandlerFacts.

Section HandlerClaims.
Import models v1.
Context {World error : Type} `{!GoError error}.
Context {JobSpecification ProjectSpecification : Type}.

Local Abbreviation Call :=
  (@v1.Call error JobSpecification ProjectSpecification).
Local Abbreviation server :=
  (@runtimeServiceServer World error JobSpecification ProjectSpecification).

(** C1: in a run of [DeploySpecification], a failed project lookup, a
    failed adaptation of a job or a failed creation of a job ends the
    request with a terminal error carrying that failure's text; the failed
    call is the last call made, so no further job is adapted or created,
    nothing is sent on the stream and [Sync] is not called.  [Sync] is called
    only after the project was found and every job of the batch was adapted
    and created. *)
Theorem DeploySpecification_setup_failure (sv : server)
    (req : DeploySpecificationRequest)
    (respStream : DeploySpecificationServer) (w : World)
    (out : outcome (option status.Status)) (w' : World) (t : list Call) :
  DeploySpecification sv req respStream w = (out, w', t) →
  (∀ c e, c ∈ t → setupFailure c = Some e →
     out = Returned (Some {| status.Code := codes.Internal;
                             status.Message := Error e |})
     ∧ (∃ pre, t = pre ++ [c]
               ∧ ∀ c', c' ∈ pre → setupFailure c' = None)
     ∧ sent t = []
     ∧ ∀ c', c' ∈ t → isSync c' = false)
  ∧ ((∃ c, c ∈ t ∧ isSync c = true) →
     ∃ projSpec specs rest,
       length specs = length (GetJobs req)
       ∧ t = CallRepoNew
               :: CallProjectGetByName (GetProjectName req) (Ok projSpec)
               :: persisted projSpec (zip (GetJobs req) specs)
               ++ CallSync projSpec :: rest).
Proof.
  intros Hrun.
  destruct (DeploySpecification_shape sv req respStream w out w' t Hrun)
    as [(pre & c0 & e0 & -> & -> & Hc0 & Hpre)
       |(projSpec & specs & rest & Hlen & -> & Hrest)].
  - destruct (setupFailure_not_send_sync c0 e0 Hc0) as [Hsend0 Hsync0].
    rewrite Forall_forall in Hpre. split.
    + intros c e Hin Hc.
      assert (c = c0) as ->.
      { apply elem_of_app in Hin as [Hin|Hin].
        - destruct (Hpre c Hin) as [Hnone _]. congruence.
        - by apply list_elem_of_singleton in Hin. }
      assert (e = e0) as -> by congruence.
      split; [done|]. split.
      { exists pre. split; [done|]. intros c' Hin'. by apply Hpre. }
      split.
      { apply sent_nil, Forall_app. split.
        - apply Forall_forall. intros c' Hin'. by apply Hpre.
        - by constructor. }
      intros c' Hin'. apply elem_of_app in Hin' as [Hin'|Hin'].
      * by apply Hpre.
      * apply list_elem_of_singleton in Hin'. by subst.
    + intros (c & Hin & Hsync). exfalso.
      apply elem_of_app in Hin as [Hin|Hin].
      * destruct (Hpre c Hin) as (_ & _ & Hq). congruence.
      * apply list_elem_of_singleton in Hin. subst. congruence.
  - split.
    + intros c e Hin Hc. exfalso.
      apply elem_of_cons in Hin as [->|Hin]; [done|].
      apply elem_of_cons in Hin as [->|Hin]; [done|].
      apply elem_of_app in Hin as [Hin|Hin].
      * pose proof (persisted_quiet (error := error)
                      (ProjectSpecification := ProjectSpecification)
                      projSpec (zip (GetJobs req) specs)) as Hq.
        rewrite Forall_forall in Hq. destruct (Hq c Hin). congruence.
      * apply elem_of_cons in Hin as [->|Hin]; [done|].
        rewrite Forall_forall in Hrest.
        destruct (notification_quiet c (Hrest c Hin)). congruence.
    + intros _. by exists projSpec, specs, rest.
Qed.

(** C5, as the code has it: when the project lookup of [GetJob] fails, for
    an unknown project as for any other reason, [GetJob] returns no response
    and a terminal status of code [Internal] whose message is the text of
    the lookup error, and the job is never looked up; a failed job lookup is
    reported in the same way, with the same code. *)
Theorem GetJob_lookup_failure (sv : server) (req : GetJobRequest)
    (w w0 : World) (projectRepo : ProjectRepository) :
  New (projectRepoFactory sv) w = (projectRepo, w0) →
  (∀ err w1,
     GetByName projectRepo (GetJobProjectName req) w0 = (Err err, w1) →
     GetJob sv req w
     = (Returned (None, Some {| status.Code := codes.Internal;
                                status.Message := Error err |}),
        w1,
        [CallRepoNew;
         CallProjectGetByName (GetJobProjectName req) (Err err)]))
  ∧ (∀ projSpec w1 err w2,
     GetByName projectRepo (GetJobProjectName req) w0 = (Ok projSpec, w1) →
     JobGetByName (jobSvc sv) (GetJobName req) projSpec w1 = (Err err, w2) →
     GetJob sv req w
     = (Returned (None, Some {| status.Code := codes.Internal;
                                status.Message := Error err |}),
        w2,
        [CallRepoNew;
         CallProjectGetByName (GetJobProjectName req) (Ok projSpec);
         CallJobGetByName (GetJobName req) projSpec (Err err)])).
Proof.
  intros Hnew. split.
  - intros err w1 Hget. unfold GetJob, mbind, M_bind, call.
    by rewrite Hnew, Hget.
  - intros projSpec w1 err w2 Hget Hjob. unfold GetJob, mbind, M_bind, call.
    by rewrite Hnew, Hget, Hjob.
Qed.

(** C8, as the code has it: [Version] never fails; its response holds the
    server's version and nothing of the request, whose client version only
    goes into the line that is printed. *)
Theorem Version_reply
    (fmt_Printf : string → World → (Z * option error) * World)
    (log_I : Z * option error → World → World)
    (sv : server) (req : VersionRequest) (w : World) :
  (Version fmt_Printf log_I sv req w).1.1
  = Returned (Some {| Server := version sv |}, None)
  ∧ (Version fmt_Printf log_I sv req w).2
    = [CallPrintf
         ("client with version " +:+ Client req +:+ " requested for ping ")
         (fmt_Printf
            ("client with version " +:+ Client req
               +:+ " requested for ping ") w).1;
       CallLogI
         (fmt_Printf
            ("client with version " +:+ Client req
               +:+ " requested for ping ") w).1].
Proof.
  unfold Version, mbind, M_bind, call, call_.
  by destruct (fmt_Printf _ w) as [r w1].
Qed.

(** C9: told of an event that is not a job upload, the relay observer
    returns at once: it sends nothing, logs nothing, does not panic and
    leaves the world as it was. *)
Theorem Notify_ignores_other_events (obs : jobSyncObserver)
    (typeName : string) (w : World) :
  Notify obs (EventOther typeName) w
  = (Returned tt, w, ([] : list Call)).
Proof. reflexivity. Qed.

(** C10: told of a job upload, the relay observer hands the stream, by
    one call of its [Send] in the current world, one acknowledgment: its job
    name is the name of the event's job, it reports success exactly when the
    event carries no error, and its message is the text of the event's
    error, or empty when there is none.  That Send is the first call of
    [Notify] and its only Send; what follows depends on the answer of the
    stream alone: nothing if it accepted, a log line if it refused and
    there is a logger, the panic on the [nil] logger otherwise. *)
Theorem Notify_acknowledgment (obs : jobSyncObserver) (job : JobSpec)
    (err : option error) (w : World) :
  ∃ resp : DeploySpecificationResponse,
    JobName resp = Name job
    ∧ (Succcess resp = true ↔ err = None)
    ∧ Message resp = match err with
                     | Some e => Error e
                     | None => ""
                     end
    ∧ Notify obs (EventJobUpload job err) w
      = match Send (stream obs) resp w with
        | (None, w1) =>
            (Returned tt, w1, [CallSend resp None] : list Call)
        | (Some sendErr, w1) =>
            match log obs with
            | Some logger =>
                (Returned tt,
                 LogError logger
                   ("failed to send deploy spec ack for: " +:+ Name job
                      +:+ ": " +:+ Error sendErr) w1,
                 [CallSend resp (Some sendErr);
                  CallLogError
                    ("failed to send deploy spec ack for: " +:+ Name job
                       +:+ ": " +:+ Error sendErr)])
            | None =>
                (Panicked nilDereference, w1,
                 [CallSend resp (Some sendErr)])
            end
        end
    ∧ sent ((Notify obs (EventJobUpload job err) w).2 : list Call) = [resp].
Proof.
  unfold Notify, mbind, M_bind, call, call_, panic, Wrapf.
  destruct err as [e|]; simpl.
  - eexists {| Succcess := false; JobName := Name job; Message := Error e |}.
    simpl. split; [done|]. split; [done|]. split; [done|].
    destruct (Send (stream obs) _ w) as [[sendErr|] w1]; simpl;
      [destruct (log obs); simpl|]; by split.
  - eexists {| Succcess := true; JobName := Name job; Message := "" |}.
    simpl. split; [done|]. split; [done|]. split; [done|].
    destruct (Send (stream obs) _ w) as [[sendErr|] w1]; simpl;
      [destruct (log obs); simpl|]; by split.
Qed.

(** What the relay observer does when the stream refuses the
    acknowledgment: with a logger it logs and returns, without one the call
    through the [nil] logger panics. *)
Lemma Notify_send_failure (obs : jobSyncObserver) (job : JobSpec)
    (err : option error) (w w1 : World) (sendErr : error) :
  let resp := {| Succcess := bool_decide (err = None);
                 JobName := Name job;
                 Message := from_option Error "" err |} in
  let msg := Wrapf sendErr
               ("failed to send deploy spec ack for: " +:+ Name job) in
  Send (stream obs) resp w = (Some sendErr, w1) →
  Notify obs (EventJobUpload job err) w
  = match log obs with
    | Some logger =>
        (Returned tt, LogError logger msg w1,
         [CallSend resp (Some sendErr); CallLogError msg] : list Call)
    | None =>
        (Panicked nilDereference, w1, [CallSend resp (Some sendErr)])
    end.
Proof.
  intros resp msg. subst resp msg.
  unfold Notify, mbind, M_bind, call, call_, panic.
  destruct err as [e|]; simpl; intros ->; by destruct (log obs).
Qed.

End HandlerClaims.

(** * The handler on the concrete deployment *)
Section HandlerRuns.
Import models v1 fixture.

Local Abbreviation Call :=
  (@v1.Call KindedError JobSpecification ProjectSpecification).

Lemma DeploySpecification_setup_failure_witness :
  let req := {| GetProjectName := "humara-projectSpec";
                GetJobs := ["a"; "broken"; "b"] |} in
  let run := DeploySpecification server req openStream [] in
  run.1.1 = Returned (Some {| status.Code := codes.Internal;
                              status.Message := "cannot adapt job" |})
  ∧ (∃ pre, run.2 = pre ++ [CallFromJobProto "broken" (Err cannotAdapt)]
       ∧ ∀ c', c' ∈ pre → setupFailure c' = None)
  ∧ sent run.2 = []
  ∧ (∀ c', c' ∈ run.2 → isSync c' = false)
  ∧ run.1.2 = ["a"].
Proof.
  intros req run.
  destruct (DeploySpecification_setup_failure server req openStream []
              run.1.1 run.1.2 run.2 eq_refl) as [Hfail _].
  destruct (Hfail (CallFromJobProto "broken" (Err cannotAdapt)) cannotAdapt)
    as (Hout & Hlast & Hsent & Hsync).
  - apply (list_elem_of_lookup_2 _ 4%nat). vm_compute. reflexivity.
  - reflexivity.
  - split; [exact Hout|]. split; [exact Hlast|]. split; [exact Hsent|].
    split; [exact Hsync | reflexivity].
Defined.

Lemma GetJob_lookup_failure_witness :
  GetJob server
    {| GetJobProjectName := "unknown"; GetJobName := "job-1" |} []
  = (Returned (None, Some {| status.Code := codes.Internal;
                             status.Message := "project not found" |}),
     [],
     [CallRepoNew;
      CallProjectGetByName "unknown" (Err projectNotFound)] : list Call)
  ∧ GetJob server
      {| GetJobProjectName := "humara-projectSpec";
         GetJobName := "unknown" |} []
    = (Returned (None, Some {| status.Code := codes.Internal;
                               status.Message := "job not found" |}),
       [],
       [CallRepoNew;
        CallProjectGetByName "humara-projectSpec" (Ok meta.projectSpec);
        CallJobGetByName "unknown" meta.projectSpec (Err jobNotFound)]).
Proof.
  split.
  - exact (proj1 (GetJob_lookup_failure server
                    {| GetJobProjectName := "unknown";
                       GetJobName := "job-1" |} [] [] projectRepo eq_refl)
             projectNotFound [] eq_refl).
  - exact (proj2 (GetJob_lookup_failure server
                    {| GetJobProjectName := "humara-projectSpec";
                       GetJobName := "unknown" |} [] [] projectRepo eq_refl)
             meta.projectSpec [] jobNotFound [] eq_refl eq_refl).
Defined.

(** C5 as stated fails: for an unknown project [GetJob] returns a status of
    code [Internal], not a not-found status; a job that cannot be printed,
    which is not a not-found outcome, is reported with the same code; and a
    lookup that fails because the store cannot be read gives the very status
    of a lookup that finds nothing when their texts agree. *)
Lemma GetJob_not_found_is_internal :
  let unknownProject :=
    (GetJob server
       {| GetJobProjectName := "unknown"; GetJobName := "job-1" |} []).1.1 in
  let unprintableJob :=
    (GetJob server
       {| GetJobProjectName := "humara-projectSpec";
          GetJobName := "legacy" |} []).1.1 in
  let missed :=
    (GetJob (serverOver (failingRepo lookupMissed))
       {| GetJobProjectName := "unknown"; GetJobName := "job-1" |} []).1.1 in
  let broke :=
    (GetJob (serverOver (failingRepo lookupBroke))
       {| GetJobProjectName := "unknown"; GetJobName := "job-1" |} []).1.1 in
  ¬ (∃ st, unknownProject = Returned (None, Some st)
           ∧ status.Code st = codes.NotFound)
  ∧ (∃ st st', unknownProject = Returned (None, Some st)
               ∧ unprintableJob = Returned (None, Some st')
               ∧ status.Code st = status.Code st')
  ∧ kind lookupMissed = NotFoundError
  ∧ kind lookupBroke ≠ NotFoundError
  ∧ missed = broke.
Proof.
  intros unknownProject unprintableJob missed broke. split.
  - intros (st & Hst & Hcode). vm_compute in Hst.
    injection Hst as <-. discriminate Hcode.
  - split.
    + by eexists _, _.
    + by repeat split.
Qed.

(** C8 as stated fails: the response of [Version] does not hold the
    client's version, since two clients of different versions get the same
    response. *)
Lemma Version_reply_omits_client :
  ¬ (∃ clientOf : VersionResponse → string,
       ∀ req : VersionRequest,
         ∃ resp,
           (Version stdout logInfo server req []).1.1
           = Returned (Some resp, None)
           ∧ clientOf resp = Client req).
Proof.
  intros (clientOf & H).
  destruct (H {| Client := "0.1.0" |}) as (r1 & Hr1 & Hc1).
  destruct (H {| Client := "0.2.0" |}) as (r2 & Hr2 & Hc2).
  vm_compute in Hr1, Hr2. injection Hr1 as <-. injection Hr2 as <-.
  simpl in *. congruence.
Qed.

(** C6 on the code: the observer [DeploySpecification] joins to the chain
    has no logger, so when the stream refuses the acknowledgment of the one
    created job, [Notify] panics on the [nil] logger after the Send; nothing
    is logged and the request ends in that panic instead of returning. *)
Theorem DeploySpecification_relay_failure_panics :
  let req := {| GetProjectName := "humara-projectSpec";
                GetJobs := ["job-1"] |} in
  let run := DeploySpecification server req closedStream [] in
  Notify {| stream := closedStream; log := None |}
    (EventJobUpload (jobNamed "job-1") None) ["job-1"]
  = (Panicked nilDereference, ["job-1"],
     [CallSend {| Succcess := true; JobName := "job-1"; Message := "" |}
        (Some callerGone)] : list Call)
  ∧ run.1.1 = Panicked nilDereference
  ∧ sent run.2
    = [{| Succcess := true; JobName := "job-1"; Message := "" |}]
  ∧ Forall (λ c : Call, match c with
                        | CallLogError _ => False
                        | _ => True
                        end) run.2.
Proof.
  intros req run. split; [reflexivity|]. split; [reflexivity|].
  split; [reflexivity|]. vm_compute. repeat constructor.
Qed.

End HandlerRuns.

(** * Further behaviour of the handler *)
Section HandlerBehaviour.
Import models v1.
Context {World error : Type} `{!GoError error}.
Context {JobSpecification ProjectSpecification : Type}.

Local Abbreviation Call :=
  (@v1.Call error JobSpecification ProjectSpecification).
Local Abbreviation M :=
  (@v1.M World error JobSpecification ProjectSpecification).
Local Abbreviation server :=
  (@runtimeServiceServer World error JobSpecification ProjectSpecification).

(** The line logged when an acknowledgment cannot be sent. *)
Local Abbreviation sendFailureLine job sendErr :=
  ("failed to send deploy spec ack for: " +:+ Name job +:+ ": "
     +:+ Error sendErr).

(** The whole of a run of [Notify] on a job upload. *)
Lemma Notify_upload (obs : jobSyncObserver) (job : JobSpec)
    (err : option error) (w : World) :
  Notify obs (EventJobUpload job err) w
  = match Send (stream obs) (acknowledgment job err) w with
    | (None, w1) =>
        (Returned tt, w1,
         [CallSend (acknowledgment job err) None] : list Call)
    | (Some sendErr, w1) =>
        match log obs with
        | Some logger =>
            (Returned tt, LogError logger (sendFailureLine job sendErr) w1,
             [CallSend (acknowledgment job err) (Some sendErr);
              CallLogError (sendFailureLine job sendErr)])
        | None =>
            (Panicked nilDereference, w1,
             [CallSend (acknowledgment job err) (Some sendErr)])
        end
    end.
Proof.
  unfold Notify, mbind, M_bind, call, call_, panic, acknowledgment, Wrapf.
  destruct err as [e|]; simpl;
    destruct (Send (stream obs) _ w) as [[sendErr|] w1]; simpl;
    try done; by destruct (log obs).
Qed.

(** The chain [DeploySpecification] builds tells the progress observer
    first and the relay observer, which has no logger, second. *)
Lemma ChainNotify_run (sv : server) (respStream : DeploySpecificationServer)
    (e : Event) (w : World) :
  ChainNotify
    (Join (Join [] (externalObserver (progressObserver sv)))
       (relayObserver {| stream := respStream; log := None |})) e w
  = match Notify {| stream := respStream; log := None |} e
            (ObserverNotify (progressObserver sv) e w) with
    | (Returned _, w1, t1) =>
        (Returned tt, w1, (CallObserverNotify e : Call) :: t1)
    | (Panicked msg, w1, t1) =>
        (Panicked msg, w1, CallObserverNotify e :: t1)
    end.
Proof.
  unfold ChainNotify, Join, externalObserver, relayObserver. simpl.
  unfold mbind, M_bind, call_. simpl.
  destruct (Notify _ e _) as [[[[]|msg] w1] t1]; simpl; [|done].
  by rewrite app_nil_r.
Qed.

(** A stream that accepts every message, and one that refuses every
    message. *)
Local Abbreviation accepting respStream :=
  (∀ (resp : DeploySpecificationResponse) (w0 : World),
     (Send respStream resp w0).1 = None).
Local Abbreviation refusing respStream :=
  (∀ (resp : DeploySpecificationResponse) (w0 : World),
     ∃ sendErr : error, (Send respStream resp w0).1 = Some sendErr).

(** One event through the chain: what is sent is the acknowledgment of the
    event, if it calls for one.  On a stream that accepts every message the
    chain returns, unless the event is a [nil] upload; on a stream that
    refuses every message it returns only for an event of another type. *)
Lemma ChainNotify_relay (sv : server) (respStream : DeploySpecificationServer)
    (e : Event) (w : World) :
  let run : outcome unit * World * list Call := ChainNotify
               (Join (Join [] (externalObserver (progressObserver sv)))
                  (relayObserver {| stream := respStream; log := None |}))
               e w in
  sent run.2 = omap ackOf [e]
  ∧ notified run.2 = [e]
  ∧ (e ≠ EventJobUploadNil → accepting respStream → run.1.1 = Returned tt)
  ∧ (refusing respStream →
       run.1.1 = match e with
                 | EventOther _ => Returned tt
                 | _ => Panicked nilDereference
                 end).
Proof.
  intros run. subst run. rewrite ChainNotify_run.
  destruct e as [job err| |typeName].
  - rewrite Notify_upload. simpl.
    set (w0 := ObserverNotify (progressObserver sv) _ w).
    destruct (Send respStream (acknowledgment job err) w0)
      as [[sendErr|] w1] eqn:HS; simpl.
    + split; [done|]. split; [done|]. split; [|done].
      intros _ Hopen. specialize (Hopen (acknowledgment job err) w0).
      rewrite HS in Hopen. done.
    + split; [done|]. split; [done|]. split; [done|].
      intros Hshut.
      destruct (Hshut (acknowledgment job err) w0) as [sendErr Hsend].
      rewrite HS in Hsend. done.
  - simpl. split; [done|]. split; [done|]. split; [|done].
    by intros Hnil.
  - simpl. by repeat split.
Qed.

(** All events of a [Sync] through the chain. *)
Lemma forEach_relay (sv : server) (respStream : DeploySpecificationServer)
    (events : list Event) (w : World) :
  let run : outcome unit * World * list Call := forEach
               (ChainNotify
                  (Join (Join [] (externalObserver (progressObserver sv)))
                     (relayObserver {| stream := respStream; log := None |})))
               events w in
  sent run.2 = omap ackOf (notified run.2)
  ∧ (Forall (λ e, e ≠ EventJobUploadNil) events → accepting respStream →
       run.1.1 = Returned tt ∧ notified run.2 = events)
  ∧ (refusing respStream →
       (∃ job err, EventJobUpload job err ∈ events) →
       run.1.1 = Panicked nilDereference).
Proof.
  revert w. induction events as [|e events IH]; intros w; simpl.
  - split; [done|]. split; [done|].
    intros _ (job & err & Hin). by apply elem_of_nil in Hin.
  - unfold mbind, M_bind.
    destruct (ChainNotify_relay sv respStream e w)
      as (Hsent & Hnotified & Hopen & Hshut).
    destruct (ChainNotify _ e w) as [[[[]|msg] w1] t1]; simpl in *.
    + destruct (IH w1) as (IHsent & IHopen & IHshut).
      destruct (forEach _ events w1) as [[o w2] t2]; simpl in *.
      unfold sent, notified in *. rewrite !omap_app.
      rewrite Hsent, Hnotified, IHsent. split; [done|]. split.
      * intros Hall Hacc. apply Forall_cons in Hall as [_ Hall].
        destruct (IHopen Hall Hacc) as [-> ->]. done.
      * intros Hall (job & err & Hin). apply IHshut; [done|].
        apply elem_of_cons in Hin as [<-|Hin]; [|by exists job, err].
        by specialize (Hshut Hall).
    + unfold sent, notified in *. rewrite Hsent, Hnotified.
      split; [done|]. split.
      * intros Hall Hacc. apply Forall_cons in Hall as [He _].
        by specialize (Hopen He Hacc).
      * intros Hall _. specialize (Hshut Hall). by destruct e.
Qed.

(** A call of the loop over the jobs: an adaptation, or a creation under
    the given project. *)
Local Abbreviation jobCall projSpec :=
  (λ c : Call, match c with
               | CallFromJobProto _ _ => True
               | CallCreate _ p _ => p = projSpec
               | _ => False
               end).

(** The loop over the jobs never panics; it adapts a prefix of the jobs in
    order, creates exactly the specs the adapter returned, and goes through
    all jobs unless it returns a status, which then has code [Internal]. *)
Lemma deployJobs_run (sv : server) (projSpec : ProjectSpec)
    (jobs : list JobSpecification) (w : World) :
  ∃ c w2 tj,
    deployJobs sv projSpec jobs w = (Returned c, w2, tj)
    ∧ adapted tj `prefix_of` jobs
    ∧ createdSpecs tj = adaptedSpecs tj
    ∧ Forall (jobCall projSpec) tj
    ∧ (c = Continue → adapted tj = jobs)
    ∧ (∀ st, c = Return st →
         ∃ e, st = Some {| status.Code := codes.Internal;
                           status.Message := Error e |}).
Proof.
  revert w. induction jobs as [|reqJob rest IH]; intros w.
  - exists Continue, w, []. simpl. split; [done|]. split; [done|].
    split; [done|]. split; [constructor|]. split; [done|]. by intros st [=].
  - simpl. unfold mbind, M_bind, call.
    destruct (FromJobProto (adapter sv) reqJob w) as [[adaptJob|err] w1].
    + destruct (Create (jobSvc sv) adaptJob projSpec w1) as [[err|] w2].
      * eexists _, _, _. split; [reflexivity|]. simpl.
        split; [apply prefix_cons, prefix_nil|]. split; [done|].
        split; [by repeat constructor|]. split; [done|].
        intros st [= <-]. by exists err.
      * destruct (IH w2) as (c & w3 & tj & -> & Hpre & Hcre & Hall & Hc & Hst).
        eexists _, _, _. split; [reflexivity|]. simpl.
        split; [by apply prefix_cons|].
        split; [unfold createdSpecs, adaptedSpecs in *; simpl; by f_equal|].
        split; [by repeat constructor|].
        split; [intros ->; unfold adapted in *; simpl; f_equal; by apply Hc|].
        exact Hst.
    + eexists _, _, _. split; [reflexivity|]. simpl.
      split; [apply prefix_cons, prefix_nil|]. split; [done|].
      split; [by repeat constructor|]. split; [done|].
      intros st [= <-]. by exists err.
Qed.

(** A run of [DeploySpecification], stage by stage: the project lookup
    fails; or the loop over the jobs returns a status; or [Sync] is called
    and its events go through the chain. *)
Lemma DeploySpecification_run (sv : server)
    (req : DeploySpecificationRequest)
    (respStream : DeploySpecificationServer) (w : World)
    (out : outcome (option status.Status)) (w' : World) (t : list Call) :
  DeploySpecification sv req respStream w = (out, w', t) →
  (∃ err,
      out = Returned (Some {| status.Code := codes.Internal;
                              status.Message := Error err |})
      ∧ t = [CallRepoNew;
             CallProjectGetByName (GetProjectName req) (Err err)])
  ∨ (∃ projSpec w1 st w2 tj,
      deployJobs sv projSpec (GetJobs req) w1 = (Returned (Return st), w2, tj)
      ∧ out = Returned st
      ∧ t = CallRepoNew
              :: CallProjectGetByName (GetProjectName req) (Ok projSpec)
              :: tj)
  ∨ (∃ projSpec w1 w2 tj events r w3,
      deployJobs sv projSpec (GetJobs req) w1 = (Returned Continue, w2, tj)
      ∧ Sync (jobSvc sv) projSpec w2 = ((events, r), w3)
      ∧ let relay :=
          forEach
            (ChainNotify
               (Join (Join [] (externalObserver (progressObserver sv)))
                  (relayObserver {| stream := respStream; log := None |})))
            events w3 in
        out = match relay.1.1 with
              | Returned _ =>
                  Returned (match r with
                            | Some err =>
                                Some {| status.Code := codes.Internal;
                                        status.Message := Error err |}
                            | None => None
                            end)
              | Panicked msg => Panicked msg
              end
        ∧ t = CallRepoNew
                :: CallProjectGetByName (GetProjectName req) (Ok projSpec)
                :: tj ++ CallSync projSpec :: relay.2).
Proof.
  unfold DeploySpecification, mbind, M_bind, call.
  destruct (New (projectRepoFactory sv) w) as [projectRepo w0].
  destruct (GetByName projectRepo (GetProjectName req) w0)
    as [[projSpec|err] w1]; simpl.
  - destruct (deployJobs_run sv projSpec (GetJobs req) w1)
      as (c & w2 & tj & Hjobs & _).
    rewrite Hjobs. destruct c as [|st].
    + unfold callSync, mbind, M_bind, call.
      destruct (Sync (jobSvc sv) projSpec w2) as [[events r] w3] eqn:HS.
      simpl.
      destruct (forEach _ events w3) as [[[[]|msg] w4] rest] eqn:HF; simpl.
      * intros Hrun. right. right.
        exists projSpec, w1, w2, tj, events, r, w3.
        split; [done|]. split; [done|]. rewrite HF. simpl.
        destruct r as [err|]; simpl in Hrun; injection Hrun as <- <- <-;
          by rewrite ?app_nil_r.
      * intros [= <- <- <-]. right. right.
        exists projSpec, w1, w2, tj, events, r, w3.
        split; [done|]. split; [done|]. by rewrite HF.
    + simpl. intros [= <- <- <-]. right. left.
      exists projSpec, w1, st, w2, tj. by rewrite app_nil_r.
  - intros [= <- <- <-]. left. by exists err.
Qed.

(** A call of the loop over the jobs is no notification, no write to the
    caller and no [Sync]. *)
Lemma jobCalls_silent (projSpec : ProjectSpec) (tj : list Call) :
  Forall (jobCall projSpec) tj →
  sent tj = [] ∧ notified tj = []
  ∧ Forall (λ c, isNotification c = false ∧ isSync c = false) tj.
Proof.
  induction 1 as [|c tj Hc _ (IH1 & IH2 & IH3)]; [done|].
  unfold sent, notified in *.
  destruct c; simpl in *; try done; by repeat constructor.
Qed.

(** Notifications adapt and create nothing. *)
Lemma notifications_idle (t : list Call) :
  Forall (λ c, isNotification c = true) t →
  adapted t = [] ∧ adaptedSpecs t = [] ∧ createdSpecs t = []
  ∧ Forall (λ c, isSync c = false) t
  ∧ ∀ a p r, CallCreate a p r ∉ t.
Proof.
  induction 1 as [|c t Hc _ (IH1 & IH2 & IH3 & IH4 & IH5)].
  - repeat split; try done. intros a p r Hin. by apply elem_of_nil in Hin.
  - unfold adapted, adaptedSpecs, createdSpecs in *.
    destruct c; simpl in *; try done;
      (repeat split; try done; [by constructor|]);
      intros a' p' r' Hin; apply elem_of_cons in Hin as [?|Hin]; try done;
      by apply (IH5 a' p' r').
Qed.

(** Where a list is cut at its only [Sync] call. *)
Lemma sync_split (before after pre post : list Call) (x c : Call) :
  Forall (λ c', isSync c' = false) before →
  Forall (λ c', isSync c' = false) after →
  before ++ x :: after = pre ++ c :: post →
  isSync c = true →
  pre = before ∧ c = x ∧ post = after.
Proof.
  intros Hbefore Hafter. revert pre.
  induction Hbefore as [|b before Hb _ IH]; intros [|c0 pre]; simpl.
  - by intros [= <- <-].
  - intros [= <- ->] Hc. rewrite Forall_forall in Hafter.
    rewrite (Hafter c) in Hc; [done|]. apply elem_of_app. right. by left.
  - intros [= <- _] Hc. congruence.
  - intros [= <- Heq] Hc. destruct (IH pre Heq Hc) as (-> & -> & ->). done.
Qed.


(** X2: when the project is found, the job is found in it and the job is
    adapted, [GetJob] answers with the adapted project and the adapted job
    and no error, after exactly five calls: repository, project lookup, job
    lookup under the project found, job adaptation, project adaptation. *)
Theorem GetJob_found (sv : server) (req : GetJobRequest) (w w0 w1 w2 w3 : World)
    (projectRepo : ProjectRepository) (projSpec : ProjectSpec)
    (jobSpec : JobSpec) (jobProto : JobSpecification) :
  New (projectRepoFactory sv) w = (projectRepo, w0) →
  GetByName projectRepo (GetJobProjectName req) w0 = (Ok projSpec, w1) →
  JobGetByName (jobSvc sv) (GetJobName req) projSpec w1 = (Ok jobSpec, w2) →
  ToJobProto (adapter sv) jobSpec w2 = (Ok jobProto, w3) →
  GetJob sv req w
  = (Returned
       (Some {| Project := (ToProjectProto (adapter sv) projSpec w3).1;
                Job := jobProto |}, None),
     (ToProjectProto (adapter sv) projSpec w3).2,
     [CallRepoNew;
      CallProjectGetByName (GetJobProjectName req) (Ok projSpec);
      CallJobGetByName (GetJobName req) projSpec (Ok jobSpec);
      CallToJobProto jobSpec (Ok jobProto);
      CallToProjectProto projSpec
        (ToProjectProto (adapter sv) projSpec w3).1]).
Proof.
  intros Hnew Hproj Hjob Hproto. unfold GetJob, mbind, M_bind, call.
  rewrite Hnew, Hproj, Hjob, Hproto.
  by destruct (ToProjectProto (adapter sv) projSpec w3).
Qed.

(** X3: when the job found cannot be adapted to its wire form, [GetJob]
    returns no response and a status of code [Internal] with the adapter's
    error text, and the project is never adapted. *)
Theorem GetJob_adapt_failure (sv : server) (req : GetJobRequest)
    (w w0 w1 w2 w3 : World) (projectRepo : ProjectRepository)
    (projSpec : ProjectSpec) (jobSpec : JobSpec) (err : error) :
  New (projectRepoFactory sv) w = (projectRepo, w0) →
  GetByName projectRepo (GetJobProjectName req) w0 = (Ok projSpec, w1) →
  JobGetByName (jobSvc sv) (GetJobName req) projSpec w1 = (Ok jobSpec, w2) →
  ToJobProto (adapter sv) jobSpec w2 = (Err err, w3) →
  GetJob sv req w
  = (Returned (None, Some {| status.Code := codes.Internal;
                             status.Message := Error err |}),
     w3,
     [CallRepoNew;
      CallProjectGetByName (GetJobProjectName req) (Ok projSpec);
      CallJobGetByName (GetJobName req) projSpec (Ok jobSpec);
      CallToJobProto jobSpec (Err err)]).
Proof.
  intros Hnew Hproj Hjob Hproto. unfold GetJob, mbind, M_bind, call.
  by rewrite Hnew, Hproj, Hjob, Hproto.
Qed.

(** X4: [GetJob] always returns, with either a response or a status and
    never both or neither; a status it returns has code [Internal]; and it
    only reads: it never saves a project, creates a job, starts a sync or
    writes to a stream. *)
Theorem GetJob_reply_exclusive (sv : server) (req : GetJobRequest)
    (w : World) :
  ∃ (resp : option GetJobResponse) (st : option status.Status),
    (GetJob sv req w).1.1 = Returned (resp, st)
    ∧ (is_Some resp ↔ st = None)
    ∧ (∀ s, st = Some s → status.Code s = codes.Internal)
    ∧ Forall (λ c : Call, isWrite c = false) (GetJob sv req w).2.
Proof.
  unfold GetJob, mbind, M_bind, call.
  destruct (New (projectRepoFactory sv) w) as [projectRepo w0].
  destruct (GetByName projectRepo (GetJobProjectName req) w0)
    as [[projSpec|err] w1]; simpl.
  - destruct (JobGetByName (jobSvc sv) (GetJobName req) projSpec w1)
      as [[jobSpec|err] w2]; simpl.
    + destruct (ToJobProto (adapter sv) jobSpec w2)
        as [[jobProto|err] w3]; simpl.
      * destruct (ToProjectProto (adapter sv) projSpec w3) as [p w4]. simpl.
        eexists _, _. split; [reflexivity|]. split; [by split|].
        split; [done|]. by repeat constructor.
      * eexists _, _. split; [reflexivity|].
        split; [split; [by intros [? [=]]|done]|].
        split; [by intros s [= <-]|]. by repeat constructor.
    + eexists _, _. split; [reflexivity|].
      split; [split; [by intros [? [=]]|done]|].
      split; [by intros s [= <-]|]. by repeat constructor.
  - eexists _, _. split; [reflexivity|].
    split; [split; [by intros [? [=]]|done]|].
    split; [by intros s [= <-]|]. by repeat constructor.
Qed.

(** The events of a [Sync] give rise to notification calls only. *)
Lemma relay_calls (sv : server) (respStream : DeploySpecificationServer)
    (events : list Event) (w : World) :
  Forall (λ c : Call, isNotification c = true)
    (forEach
       (ChainNotify
          (Join (Join [] (externalObserver (progressObserver sv)))
             (relayObserver {| stream := respStream; log := None |})))
       events w).2.
Proof. apply forEach_calls, ChainNotify_calls. Qed.

(** What is adapted and created in a run that reaches [Sync] is what the
    loop over the jobs adapted and created. *)
Lemma synced_run_jobs (name : string) (projSpec : ProjectSpec)
    (tj rest : list Call) :
  Forall (λ c, isNotification c = true) rest →
  let t := CallRepoNew :: CallProjectGetByName name (Ok projSpec)
             :: tj ++ CallSync projSpec :: rest in
  adapted t = adapted tj
  ∧ adaptedSpecs t = adaptedSpecs tj
  ∧ createdSpecs t = createdSpecs tj.
Proof.
  intros Hrest t. subst t.
  destruct (notifications_idle rest Hrest) as (Hn1 & Hn2 & Hn3 & _).
  change (CallRepoNew :: CallProjectGetByName name (Ok projSpec)
            :: tj ++ CallSync projSpec :: rest)
    with ([CallRepoNew; CallProjectGetByName name (Ok projSpec)]
            ++ tj ++ [CallSync projSpec] ++ rest).
  unfold adapted, adaptedSpecs, createdSpecs in *.
  rewrite !omap_app, Hn1, Hn2, Hn3. simpl. by rewrite !app_nil_r.
Qed.

(** X5: in every run of [DeploySpecification] the jobs handed to the
    adapter are a prefix of the request's jobs, in request order; [Create]
    is called exactly for the specs the adapter returned, in that order and
    once each; every [Create] is given the project the lookup returned; and
    once [Sync] is called all jobs of the request have been adapted. *)
Theorem DeploySpecification_creates_adapted (sv : server)
    (req : DeploySpecificationRequest)
    (respStream : DeploySpecificationServer) (w : World)
    (out : outcome (option status.Status)) (w' : World) (t : list Call) :
  DeploySpecification sv req respStream w = (out, w', t) →
  adapted t `prefix_of` GetJobs req
  ∧ createdSpecs t = adaptedSpecs t
  ∧ (∀ a p r, CallCreate a p r ∈ t →
       CallProjectGetByName (GetProjectName req) (Ok p) ∈ t)
  ∧ ((∃ c, c ∈ t ∧ isSync c = true) → adapted t = GetJobs req).
Proof.
  intros Hrun.
  destruct (DeploySpecification_run sv req respStream w out w' t Hrun)
    as [(err & _ & ->)
       |[(projSpec & w1 & st & w2 & tj & Hjobs & _ & ->)
        |(projSpec & w1 & w2 & tj & events & r & w3 & Hjobs & _ & _ & ->)]].
  - split; [apply prefix_nil|]. split; [done|]. split.
    + intros a p r Hin.
      apply elem_of_cons in Hin as [?|Hin]; [done|].
      apply elem_of_cons in Hin as [?|Hin]; [done|].
      by apply elem_of_nil in Hin.
    + intros (c & Hin & Hc).
      apply elem_of_cons in Hin as [->|Hin]; [done|].
      apply elem_of_cons in Hin as [->|Hin]; [done|].
      by apply elem_of_nil in Hin.
  - destruct (deployJobs_run sv projSpec (GetJobs req) w1)
      as (c & w2' & tj' & Hjobs' & Hpre & Hcre & Hall & _).
    rewrite Hjobs in Hjobs'. injection Hjobs' as <- <- <-.
    destruct (jobCalls_silent projSpec tj Hall) as (_ & _ & Hsilent).
    rewrite Forall_forall in Hall, Hsilent.
    split; [exact Hpre|]. split; [exact Hcre|]. split.
    + intros a p r Hin.
      apply elem_of_cons in Hin as [?|Hin]; [done|].
      apply elem_of_cons in Hin as [?|Hin]; [done|].
      specialize (Hall _ Hin). simpl in Hall. subst p. right. by left.
    + intros (c & Hin & Hc).
      apply elem_of_cons in Hin as [->|Hin]; [done|].
      apply elem_of_cons in Hin as [->|Hin]; [done|].
      destruct (Hsilent c Hin). congruence.
  - destruct (deployJobs_run sv projSpec (GetJobs req) w1)
      as (c & w2' & tj' & Hjobs' & Hpre & Hcre & Hall & Hcont & _).
    rewrite Hjobs in Hjobs'. injection Hjobs' as <- <- <-.
    specialize (Hcont eq_refl).
    pose proof (relay_calls sv respStream events w3) as Hrel.
    destruct (forEach _ events w3) as [[relayOut w4] rest]. simpl in Hrel.
    simpl fst. simpl snd.
    destruct (notifications_idle rest Hrel) as (_ & _ & _ & _ & Hn5).
    destruct (synced_run_jobs (GetProjectName req) projSpec tj rest Hrel)
      as (Ha & Has & Hcs).
    rewrite Forall_forall in Hall.
    rewrite Ha, Has, Hcs, Hcont.
    split; [done|]. split; [exact Hcre|]. split; [|done].
    intros a p r0 Hin.
    apply elem_of_cons in Hin as [?|Hin]; [done|].
    apply elem_of_cons in Hin as [?|Hin]; [done|].
    apply elem_of_app in Hin as [Hin|Hin].
    + specialize (Hall _ Hin). simpl in Hall. subst p. right. by left.
    + apply elem_of_cons in Hin as [?|Hin]; [done|]. by apply Hn5 in Hin.
Qed.

(** X6: whatever fails, a status [DeploySpecification] returns has code
    [Internal]: a failed lookup, adaptation, creation or [Sync] are all
    reported alike. *)
Theorem DeploySpecification_status_internal (sv : server)
    (req : DeploySpecificationRequest)
    (respStream : DeploySpecificationServer) (w : World) (st : status.Status) :
  (DeploySpecification sv req respStream w).1.1 = Returned (Some st) →
  status.Code st = codes.Internal.
Proof.
  destruct (DeploySpecification sv req respStream w) as [[out w'] t] eqn:Hrun.
  simpl. intros ->.
  destruct (DeploySpecification_run sv req respStream w _ w' t Hrun)
    as [(err & Hout & _)
       |[(projSpec & w1 & st' & w2 & tj & Hjobs & Hout & _)
        |(projSpec & w1 & w2 & tj & events & r & w3 & _ & _ & Hout & _)]].
  - by injection Hout as ->.
  - injection Hout as <-.
    destruct (deployJobs_run sv projSpec (GetJobs req) w1)
      as (c & w2' & tj' & Hjobs' & _ & _ & _ & _ & Hst).
    rewrite Hjobs in Hjobs'. injection Hjobs' as <- <- <-.
    destruct (Hst _ eq_refl) as [e [= ->]]. done.
  - destruct (forEach _ events w3).1.1; [|done].
    destruct r; [by injection Hout as ->|done].
Qed.

(** X7: a request with no jobs and a project that is found goes straight
    to [Sync]: after the lookup the next call is [Sync] for the project
    found, and only notifications follow. *)
Theorem DeploySpecification_empty_batch (sv : server)
    (req : DeploySpecificationRequest)
    (respStream : DeploySpecificationServer) (w w0 w1 : World)
    (projectRepo : ProjectRepository) (projSpec : ProjectSpec) :
  GetJobs req = [] →
  New (projectRepoFactory sv) w = (projectRepo, w0) →
  GetByName projectRepo (GetProjectName req) w0 = (Ok projSpec, w1) →
  ∃ rest : list Call,
    (DeploySpecification sv req respStream w).2
    = CallRepoNew
        :: CallProjectGetByName (GetProjectName req) (Ok projSpec)
        :: CallSync projSpec :: rest
    ∧ Forall (λ c, isNotification c = true) rest.
Proof.
  intros Hjobs Hnew Hget.
  unfold DeploySpecification, mbind, M_bind, call.
  rewrite Hnew, Hget, Hjobs. simpl.
  unfold callSync, mbind, M_bind, call.
  destruct (Sync (jobSvc sv) projSpec w1) as [[events r] w2]. simpl.
  pose proof (relay_calls sv respStream events w2) as Hrest.
  destruct (forEach _ events w2) as [[[[]|msg] w3] rest]; simpl in *.
  - exists rest. destruct r; simpl; by rewrite !app_nil_r.
  - by exists rest.
Qed.

(** X8: when the project is found, every job is adapted and created and
    [Sync] returns its events and its result, then on a stream that accepts
    every message, and with no [nil] upload among the events,
    [DeploySpecification] returns what [Sync] returns: no error when [Sync]
    returns none, whatever errors the uploaded jobs carry, and a status of
    code [Internal] with the text of [Sync]'s error otherwise.  On the way
    the progress observer is told of every event of that [Sync], in order,
    and the stream is handed their acknowledgments. *)
Theorem DeploySpecification_sync_result (sv : server)
    (req : DeploySpecificationRequest)
    (respStream : DeploySpecificationServer) (w w0 w1 w2 w3 : World)
    (projectRepo : ProjectRepository) (projSpec : ProjectSpec)
    (tj : list Call) (events : list Event) (r : option error) :
  New (projectRepoFactory sv) w = (projectRepo, w0) →
  GetByName projectRepo (GetProjectName req) w0 = (Ok projSpec, w1) →
  deployJobs sv projSpec (GetJobs req) w1 = (Returned Continue, w2, tj) →
  Sync (jobSvc sv) projSpec w2 = ((events, r), w3) →
  Forall (λ e, e ≠ EventJobUploadNil) events →
  (∀ resp w', (Send respStream resp w').1 = None) →
  (DeploySpecification sv req respStream w).1.1
  = Returned match r with
             | Some err => Some {| status.Code := codes.Internal;
                                   status.Message := Error err |}
             | None => None
             end
  ∧ notified (DeploySpecification sv req respStream w).2 = events
  ∧ sent (DeploySpecification sv req respStream w).2 = omap ackOf events.
Proof.
  intros Hnew Hget Hjobs HS Hevents Hopen.
  destruct (deployJobs_run sv projSpec (GetJobs req) w1)
    as (c' & w2' & tj' & Hjobs' & _ & _ & Hall & _).
  rewrite Hjobs in Hjobs'. injection Hjobs' as <- <- <-.
  destruct (jobCalls_silent projSpec tj Hall) as (Hs & Hn & _).
  destruct (forEach_relay sv respStream events w3) as (Hsent & Hret & _).
  destruct (Hret Hevents Hopen) as [Hout Hnotified].
  unfold DeploySpecification, mbind, M_bind, call.
  rewrite Hnew, Hget. simpl. rewrite Hjobs.
  unfold callSync, mbind, M_bind, call. rewrite HS. simpl.
  destruct (forEach _ events w3) as [[relayOut w4] rest].
  simpl in Hsent, Hout, Hnotified. subst relayOut. simpl.
  assert (Hrest : ∀ tail : list Call,
            sent tail = omap ackOf events → notified tail = events →
            notified (tj ++ CallSync projSpec :: tail) = events
            ∧ sent (tj ++ CallSync projSpec :: tail) = omap ackOf events).
  { intros tail Hts Htn.
    change (tj ++ CallSync projSpec :: tail)
      with (tj ++ [CallSync projSpec] ++ tail).
    unfold sent, notified in *. by rewrite !omap_app, Hs, Hn, Hts, Htn. }
  rewrite Hnotified in Hsent.
  destruct r as [err|]; simpl; (split; [done|]); rewrite ?app_nil_r;
    by apply Hrest.
Qed.


(** X10: on a stream that refuses every message, a run of
    [DeploySpecification] that gets an upload event from [Sync] does not
    return: the relay observer it built has no logger, so the first upload
    event ends the request in a panic on a [nil] dereference, whatever
    result [Sync] had for it. *)
Theorem DeploySpecification_refused_stream_panics (sv : server)
    (req : DeploySpecificationRequest)
    (respStream : DeploySpecificationServer) (w w0 w1 w2 w3 : World)
    (projectRepo : ProjectRepository) (projSpec : ProjectSpec)
    (tj : list Call) (events : list Event) (r : option error)
    (job : JobSpec) (err : option error) :
  New (projectRepoFactory sv) w = (projectRepo, w0) →
  GetByName projectRepo (GetProjectName req) w0 = (Ok projSpec, w1) →
  deployJobs sv projSpec (GetJobs req) w1 = (Returned Continue, w2, tj) →
  Sync (jobSvc sv) projSpec w2 = ((events, r), w3) →
  EventJobUpload job err ∈ events →
  (∀ resp w', ∃ sendErr, (Send respStream resp w').1 = Some sendErr) →
  (DeploySpecification sv req respStream w).1.1 = Panicked nilDereference.
Proof.
  intros Hnew Hget Hjobs HS Hin Hshut.
  destruct (forEach_relay sv respStream events w3) as (_ & _ & Hpanic).
  specialize (Hpanic Hshut (ex_intro _ job (ex_intro _ err Hin))).
  unfold DeploySpecification, mbind, M_bind, call.
  rewrite Hnew, Hget. simpl. rewrite Hjobs.
  unfold callSync, mbind, M_bind, call. rewrite HS. simpl.
  destruct (forEach _ events w3) as [[relayOut w4] rest].
  simpl in Hpanic. by subst relayOut.
Qed.

(** X11: [Sync] is called at most once in a run of [DeploySpecification];
    every call after it is a notification (to the progress observer, to the
    stream, or to the log), and no call before it is: nothing is sent, and
    no job is adapted or created, on the wrong side of [Sync]. *)
Theorem DeploySpecification_after_sync (sv : server)
    (req : DeploySpecificationRequest)
    (respStream : DeploySpecificationServer) (w : World)
    (pre post : list Call) (c : Call) :
  (DeploySpecification sv req respStream w).2 = pre ++ c :: post →
  isSync c = true →
  Forall (λ c', isNotification c' = true) post
  ∧ Forall (λ c', isNotification c' = false ∧ isSync c' = false) pre.
Proof.
  destruct (DeploySpecification sv req respStream w) as [[out w'] t] eqn:Hrun.
  simpl. intros -> Hc.
  destruct (DeploySpecification_run sv req respStream w out w' _ Hrun)
    as [(err & _ & Ht)
       |[(projSpec & w1 & st & w2 & tj & Hjobs & _ & Ht)
        |(projSpec & w1 & w2 & tj & events & r & w3 & Hjobs & _ & _ & Ht)]].
  - exfalso.
    assert (Hin : c ∈ pre ++ c :: post)
      by (apply elem_of_app; right; by left).
    rewrite Ht in Hin.
    apply elem_of_cons in Hin as [->|Hin]; [done|].
    apply elem_of_cons in Hin as [->|Hin]; [done|].
    by apply elem_of_nil in Hin.
  - exfalso.
    destruct (deployJobs_run sv projSpec (GetJobs req) w1)
      as (c' & w2' & tj' & Hjobs' & _ & _ & Hall & _).
    rewrite Hjobs in Hjobs'. injection Hjobs' as <- <- <-.
    destruct (jobCalls_silent projSpec tj Hall) as (_ & _ & Hsilent).
    rewrite Forall_forall in Hsilent.
    assert (Hin : c ∈ pre ++ c :: post)
      by (apply elem_of_app; right; by left).
    rewrite Ht in Hin.
    apply elem_of_cons in Hin as [->|Hin]; [done|].
    apply elem_of_cons in Hin as [->|Hin]; [done|].
    destruct (Hsilent c Hin). congruence.
  - destruct (deployJobs_run sv projSpec (GetJobs req) w1)
      as (c' & w2' & tj' & Hjobs' & _ & _ & Hall & _).
    rewrite Hjobs in Hjobs'. injection Hjobs' as <- <- <-.
    destruct (jobCalls_silent projSpec tj Hall) as (_ & _ & Hsilent).
    pose proof (relay_calls sv respStream events w3) as Hrel.
    destruct (forEach _ events w3) as [[relayOut w4] rest].
    simpl in Hrel, Ht.
    assert (Hbefore :
      Forall (λ c' : Call, isNotification c' = false ∧ isSync c' = false)
        (CallRepoNew
           :: CallProjectGetByName (GetProjectName req) (Ok projSpec) :: tj))
      by (by repeat constructor).
    destruct (sync_split
                (CallRepoNew
                   :: CallProjectGetByName (GetProjectName req) (Ok projSpec)
                   :: tj)
                rest pre post (CallSync projSpec) c)
      as (-> & -> & ->); try done.
    + eapply Forall_impl; [exact Hbefore|]. by intros ? [].
    + destruct (notifications_idle rest Hrel) as (_ & _ & _ & Hns & _).
      exact Hns.
Qed.

(** X12: when the stream accepts the acknowledgment of a job upload,
    [Notify] returns after that one Send and logs nothing, whether or not
    the observer has a logger: the [nil] logger of the observer
    [DeploySpecification] builds is never touched then. *)
Theorem Notify_send_accepted (obs : jobSyncObserver) (job : JobSpec)
    (err : option error) (w w1 : World) :
  Send (stream obs) (acknowledgment job err) w = (None, w1) →
  Notify obs (EventJobUpload job err) w
  = (Returned tt, w1, [CallSend (acknowledgment job err) None] : list Call).
Proof. intros Hsend. by rewrite Notify_upload, Hsend. Qed.

(** X13: when the stream refuses the acknowledgment of a job upload, an
    observer that has a logger logs one line, "failed to send deploy spec
    ack for: ", the job's name, ": " and the text of the stream's error,
    after the one Send, and returns. *)
Theorem Notify_logs_refused_send (obs : jobSyncObserver)
    (logger : FieldLogger) (job : JobSpec) (err : option error)
    (w w1 : World) (sendErr : error) :
  log obs = Some logger →
  Send (stream obs) (acknowledgment job err) w = (Some sendErr, w1) →
  Notify obs (EventJobUpload job err) w
  = (Returned tt,
     LogError logger
       ("failed to send deploy spec ack for: " +:+ Name job +:+ ": "
          +:+ Error sendErr) w1,
     [CallSend (acknowledgment job err) (Some sendErr);
      CallLogError
        ("failed to send deploy spec ack for: " +:+ Name job +:+ ": "
           +:+ Error sendErr)] : list Call).
Proof. intros Hlog Hsend. by rewrite Notify_upload, Hsend, Hlog. Qed.

End HandlerBehaviour.

(** * Further runs on the concrete deployment *)
Section BehaviourRuns.
Import models v1 fixture.

Local Abbreviation Call :=
  (@v1.Call KindedError JobSpecification ProjectSpecification).

Lemma GetJob_found_witness :
  GetJob server
    {| GetJobProjectName := "humara-projectSpec"; GetJobName := "job-1" |} []
  = (Returned (Some {| Project := "humara-projectSpec"; Job := "job-1" |},
               None),
     [],
     [CallRepoNew;
      CallProjectGetByName "humara-projectSpec" (Ok meta.projectSpec);
      CallJobGetByName "job-1" meta.projectSpec (Ok meta.jobSpec1);
      CallToJobProto meta.jobSpec1 (Ok "job-1");
      CallToProjectProto meta.projectSpec "humara-projectSpec"]
     : list Call).
Proof.
  exact (GetJob_found server
           {| GetJobProjectName := "humara-projectSpec";
              GetJobName := "job-1" |}
           [] [] [] [] [] projectRepo meta.projectSpec meta.jobSpec1 "job-1"
           eq_refl eq_refl eq_refl eq_refl).
Defined.

Lemma GetJob_adapt_failure_witness :
  GetJob server
    {| GetJobProjectName := "humara-projectSpec"; GetJobName := "legacy" |} []
  = (Returned (None, Some {| status.Code := codes.Internal;
                             status.Message := "cannot adapt job" |}),
     [],
     [CallRepoNew;
      CallProjectGetByName "humara-projectSpec" (Ok meta.projectSpec);
      CallJobGetByName "legacy" meta.projectSpec (Ok (jobNamed "legacy"));
      CallToJobProto (jobNamed "legacy") (Err cannotAdapt)] : list Call).
Proof.
  exact (GetJob_adapt_failure server
           {| GetJobProjectName := "humara-projectSpec";
              GetJobName := "legacy" |}
           [] [] [] [] [] projectRepo meta.projectSpec (jobNamed "legacy")
           cannotAdapt eq_refl eq_refl eq_refl eq_refl).
Defined.

Lemma DeploySpecification_creates_adapted_witness :
  let req := {| GetProjectName := "humara-projectSpec";
                GetJobs := ["a"; "broken"; "b"] |} in
  let run := DeploySpecification server req openStream [] in
  adapted run.2 = ["a"; "broken"]
  ∧ adapted run.2 `prefix_of` ["a"; "broken"; "b"]
  ∧ createdSpecs run.2 = adaptedSpecs run.2
  ∧ map Name (createdSpecs run.2) = ["a"].
Proof.
  intros req run.
  destruct (DeploySpecification_creates_adapted server req openStream []
              run.1.1 run.1.2 run.2 eq_refl) as (Hprefix & Hcreated & _).
  split; [reflexivity|]. split; [exact Hprefix|].
  split; [exact Hcreated | reflexivity].
Defined.

Lemma DeploySpecification_status_internal_witness :
  let req := {| GetProjectName := "humara-projectSpec";
                GetJobs := ["a"; "taken"] |} in
  (DeploySpecification server req openStream []).1.1
  = Returned (Some {| status.Code := codes.Internal;
                      status.Message := "cannot create job" |})
  ∧ status.Code {| status.Code := codes.Internal;
                   status.Message := "cannot create job" |}
    = codes.Internal.
Proof.
  intros req. split; [reflexivity|].
  exact (DeploySpecification_status_internal server req openStream []
           {| status.Code := codes.Internal;
              status.Message := "cannot create job" |} eq_refl).
Defined.

Lemma DeploySpecification_empty_batch_witness :
  let req := {| GetProjectName := "humara-projectSpec"; GetJobs := [] |} in
  ∃ rest : list Call,
    (DeploySpecification server req openStream []).2
    = CallRepoNew
        :: CallProjectGetByName "humara-projectSpec" (Ok meta.projectSpec)
        :: CallSync meta.projectSpec :: rest
    ∧ Forall (λ c, isNotification c = true) rest.
Proof.
  intros req.
  exact (DeploySpecification_empty_batch server req openStream [] [] []
           projectRepo meta.projectSpec eq_refl eq_refl eq_refl).
Defined.

Lemma DeploySpecification_sync_result_witness :
  let req := {| GetProjectName := "humara-projectSpec";
                GetJobs := ["a"; "b"] |} in
  let run := DeploySpecification (serverWith failingUploads) req
               openStream [] in
  run.1.1 = Returned None
  ∧ notified run.2
    = [EventJobUpload (jobNamed "a") (Some uploadFailed);
       EventJobUpload (jobNamed "b") (Some uploadFailed);
       EventOther "progress.Tick"]
  ∧ sent run.2
    = [{| Succcess := false; JobName := "a";
          Message := "cannot upload job" |};
       {| Succcess := false; JobName := "b";
          Message := "cannot upload job" |}].
Proof.
  intros req run.
  pose (jobs := deployJobs (serverWith failingUploads) meta.projectSpec
                  ["a"; "b"] []).
  pose (sync := Sync failingUploads meta.projectSpec jobs.1.2).
  refine (DeploySpecification_sync_result (serverWith failingUploads) req
            openStream [] [] [] jobs.1.2 sync.2 projectRepo meta.projectSpec
            jobs.2 sync.1.1 None eq_refl eq_refl eq_refl eq_refl _ _).
  - vm_compute. by repeat constructor.
  - intros resp w'. reflexivity.
Defined.

Lemma DeploySpecification_refused_stream_panics_witness :
  let req := {| GetProjectName := "humara-projectSpec";
                GetJobs := ["a"; "b"] |} in
  (DeploySpecification server req closedStream []).1.1
  = Panicked nilDereference.
Proof.
  intros req.
  pose (jobs := deployJobs server meta.projectSpec ["a"; "b"] []).
  pose (sync := Sync jobService meta.projectSpec jobs.1.2).
  refine (DeploySpecification_refused_stream_panics server req closedStream
            [] [] [] jobs.1.2 sync.2 projectRepo meta.projectSpec
            jobs.2 sync.1.1 sync.1.2 (jobNamed "b") None
            eq_refl eq_refl eq_refl eq_refl _ _).
  - apply (list_elem_of_lookup_2 _ 1%nat). reflexivity.
  - intros resp w'. by exists callerGone.
Defined.

Lemma DeploySpecification_after_sync_witness :
  let req := {| GetProjectName := "humara-projectSpec";
                GetJobs := ["a"] |} in
  let pre : list Call :=
    [CallRepoNew;
     CallProjectGetByName "humara-projectSpec" (Ok meta.projectSpec);
     CallFromJobProto "a" (Ok (jobNamed "a"));
     CallCreate (jobNamed "a") meta.projectSpec None] in
  let post : list Call :=
    [CallObserverNotify (EventJobUpload (jobNamed "a") None);
     CallSend {| Succcess := true; JobName := "a"; Message := "" |} None] in
  (DeploySpecification server req openStream []).2
  = pre ++ CallSync meta.projectSpec :: post
  ∧ Forall (λ c', isNotification c' = true) post
  ∧ Forall (λ c', isNotification c' = false ∧ isSync c' = false) pre.
Proof.
  intros req pre post. split; [reflexivity|].
  exact (DeploySpecification_after_sync server req openStream [] pre post
           (CallSync meta.projectSpec) eq_refl eq_refl).
Defined.

Lemma Notify_send_accepted_witness :
  Notify {| stream := openStream; log := None |}
    (EventJobUpload (jobNamed "job-1") (Some uploadFailed)) []
  = (Returned tt, [],
     [CallSend {| Succcess := false; JobName := "job-1";
                  Message := "cannot upload job" |} None] : list Call).
Proof.
  exact (Notify_send_accepted {| stream := openStream; log := None |}
           (jobNamed "job-1") (Some uploadFailed) [] [] eq_refl).
Defined.

Lemma Notify_logs_refused_send_witness :
  Notify {| stream := closedStream; log := Some quietLogger |}
    (EventJobUpload (jobNamed "job-1") (Some uploadFailed)) []
  = (Returned tt, [],
     [CallSend {| Succcess := false; JobName := "job-1";
                  Message := "cannot upload job" |} (Some callerGone);
      CallLogError
        "failed to send deploy spec ack for: job-1: transport is closing"]
     : list Call).
Proof.
  exact (Notify_logs_refused_send
           {| stream := closedStream; log := Some quietLogger |}
           quietLogger (jobNamed "job-1") (Some uploadFailed) [] []
           callerGone eq_refl eq_refl).
Defined.

End BehaviourRuns.
